(** * Task-Notion: the schema-driven property translation layer of server.js

    A shallow embedding of [src/server/server.js] (the Express adapter in
    front of a Notion database) and the properties of its translation
    layer: the schema cache [getDatabaseSchema], the property codec
    [extractPropertyValue] / [setPropertyValue], and the route handlers
    that translate records on the read path and on the write path.

    Modelling conventions.
    - A JavaScript object is the list of its own enumerable entries, in
      [Object.entries] order; [get] reads an own entry, [member] reads
      through the prototype chain as [o[k]] does on a request body.
    - The values of a request are JSON values.  [String] and [Number] throw
      on an object that has an own member [toString] (it cannot be a
      function), and on an array that holds such an object.
    - JavaScript numbers and [String.prototype.toLowerCase] on arbitrary
      text are kept abstract ([JsNumber]); [toLowerCase] folds the ASCII
      letters only and is used where it decides the same as the runtime's,
      for membership in the done words.
    - The objects the handlers build by assignment ([notionProps],
      [result.properties]) are finite maps of their own entries.  In the two
      write loops an assignment to the key [__proto__] adds no entry.  What
      is proved of the read path and of the completed-flag block is proved
      for columns that are not named like a member of [Object.prototype].
    - The Notion client is an oracle answering each call from the history
      of the calls made so far; the handlers run in a state-and-exception
      monad over the schema cache and that history. *)

From stdpp Require Import gmap strings list fin_maps pretty.
From Stdlib Require Import Ascii String.

Set Warnings "-register-all".
Local Open Scope string_scope.

(** ** JavaScript values *)

(** What the runtime provides and the model keeps abstract: the Number
    type, and lower-casing of arbitrary text. *)
Class JsNumber (num : Type) : Type := {
  num_truthy : num -> bool;        (* ToBoolean: false on +0, -0 and NaN *)
  num_to_string : num -> string;   (* Number::toString *)
  string_to_num : string -> num;   (* StringToNumber *)
  bool_to_num : bool -> num;       (* 1 for true, +0 for false *)
  lowerCase : string -> string     (* String.prototype.toLowerCase *)
}.

Inductive JsError : Type :=
| TypeError                        (* member access on undefined; no primitive form *)
| APIResponseError (code : string) (* a rejected Notion client call *).

Inductive Result (A : Type) : Type :=
| Ok (a : A)
| Throw (e : JsError).
Arguments Ok {A} a.
Arguments Throw {A} e.

(** [r] then [k], unless [r] throws. *)
Definition andThen {A B : Type} (r : Result A) (k : A -> Result B) : Result B :=
  match r with
  | Ok a => k a
  | Throw e => Throw e
  end.

(** [xs.map(f)] for a callback that may throw. *)
Fixpoint mapResult {A B : Type} (f : A -> Result B) (xs : list A) : Result (list B) :=
  match xs with
  | [] => Ok []
  | x :: xs' =>
      andThen (f x) (fun y => andThen (mapResult f xs') (fun ys => Ok (y :: ys)))
  end.

(** [xs.forEach(step)] on an accumulator, for a callback that may throw. *)
Fixpoint forEachResult {A S : Type} (step : S -> A -> Result S) (xs : list A) (acc : S)
  : Result S :=
  match xs with
  | [] => Ok acc
  | x :: xs' => andThen (step acc x) (forEachResult step xs')
  end.

(** [s.toLowerCase()] as far as the done-word test needs it: the ASCII
    capitals are folded and every other unit is left alone.  No other
    character lowers to a letter of "done", "complete" or "completed", so
    the test decides as it does with the runtime's lower-casing. *)
Definition lower_ascii (c : ascii) : ascii :=
  let n := nat_of_ascii c in
  if (65 <=? n)%nat && (n <=? 90)%nat then ascii_of_nat (n + 32) else c.

Fixpoint toLowerCase (s : string) : string :=
  match s with
  | EmptyString => EmptyString
  | String c s' => String (lower_ascii c) (toLowerCase s')
  end.

(** [xs.includes(x)] on an array of strings. *)
Definition includes (xs : list string) (x : string) : bool :=
  existsb (String.eqb x) xs.

(** The vocabulary both handlers test with
    [['done','complete','completed'].includes(s.toLowerCase())]. *)
Definition doneWords : list string := ["done"; "complete"; "completed"].

Definition isDoneName (s : string) : bool := includes doneWords (toLowerCase s).

(** The first entry of an object under the key [k]. *)
Fixpoint assoc {V : Type} (k : string) (o : list (string * V)) : option V :=
  match o with
  | [] => None
  | (k', v) :: o' => if String.eqb k' k then Some v else assoc k o'
  end.

(** Truthiness of a string ([if (s)]). *)
Definition nonEmpty (s : string) : bool :=
  match s with EmptyString => false | String _ _ => true end.

(** The names [Object.prototype] defines. *)
Definition objectPrototypeNames : list string :=
  ["constructor"; "__defineGetter__"; "__defineSetter__"; "hasOwnProperty";
   "__lookupGetter__"; "__lookupSetter__"; "isPrototypeOf"; "propertyIsEnumerable";
   "toString"; "valueOf"; "__proto__"; "toLocaleString"].

(** The names [Array.prototype] defines (ES2023). *)
Definition arrayPrototypeNames : list string :=
  ["at"; "concat"; "constructor"; "copyWithin"; "entries"; "every"; "fill"; "filter";
   "find"; "findIndex"; "findLast"; "findLastIndex"; "flat"; "flatMap"; "forEach";
   "includes"; "indexOf"; "join"; "keys"; "lastIndexOf"; "map"; "pop"; "push";
   "reduce"; "reduceRight"; "reverse"; "shift"; "slice"; "some"; "sort"; "splice";
   "toLocaleString"; "toReversed"; "toSorted"; "toSpliced"; "toString"; "unshift";
   "values"; "with"].

(** [xs.join(sep)] on strings. *)
Fixpoint join (sep : string) (xs : list string) : string :=
  match xs with
  | [] => EmptyString
  | [x] => x
  | x :: xs' => x ++ sep ++ join sep xs'
  end.

Section Model.
Context {num : Type} `{!JsNumber num}.

Inductive JsValue : Type :=
| VUndefined
| VNull
| VBool (b : bool)
| VNum (n : num)
| VStr (s : string)
| VArr (elems : list JsValue)
| VObj (members : list (string * JsValue)).

(** [Boolean(v)], and the truthiness test of [if], [!], [&&], [||]. *)
Definition ToBoolean (v : JsValue) : bool :=
  match v with
  | VUndefined | VNull => false
  | VBool b => b
  | VNum n => num_truthy n
  | VStr s => nonEmpty s
  | VArr _ | VObj _ => true
  end.

(** [String(v)].  An array prints its elements joined by commas, with
    [null] and [undefined] elements printed as nothing.  An object prints as
    "[object Object]" through the inherited [toString]; when it has an own
    member [toString], which is no function, the conversion falls back on
    [valueOf], gets no primitive, and throws. *)
Fixpoint ToString (v : JsValue) : Result string :=
  match v with
  | VUndefined => Ok "undefined"
  | VNull => Ok "null"
  | VBool true => Ok "true"
  | VBool false => Ok "false"
  | VNum n => Ok (num_to_string n)
  | VStr s => Ok s
  | VArr elems =>
      andThen
        ((fix each (l : list JsValue) : Result (list string) :=
            match l with
            | [] => Ok []
            | x :: l' =>
                andThen
                  match x with
                  | VUndefined | VNull => Ok EmptyString
                  | _ => ToString x
                  end
                  (fun s => andThen (each l') (fun ss => Ok (s :: ss)))
            end) elems)
        (fun parts => Ok (join "," parts))
  | VObj members =>
      match assoc "toString" members with
      | Some _ => Throw TypeError
      | None => Ok "[object Object]"
      end
  end.

(** [Number(v)]; objects and arrays go through their string. *)
Definition ToNumber (v : JsValue) : Result num :=
  match v with
  | VUndefined => Ok (string_to_num "NaN")
  | VNull => Ok (bool_to_num false)
  | VBool b => Ok (bool_to_num b)
  | VNum n => Ok n
  | v => andThen (ToString v) (fun s => Ok (string_to_num s))
  end.

(** [Object.entries(v)] for a value that passed the [typeof v === 'object']
    test: the members of an object, the indexed elements of an array. *)
Definition entries (v : JsValue) : list (string * JsValue) :=
  match v with
  | VObj members => members
  | VArr elems => imap (fun i x => (pretty i, x)) elems
  | _ => []
  end.

(** The own member [k] of [v]; [None] when [v] has no such member. *)
Definition get (v : JsValue) (k : string) : option JsValue := assoc k (entries v).

(** What [v[k]] reads on a request body: an own member, the [length] of an
    array, a function of the prototype chain, the prototype itself (through
    [__proto__]), or nothing. *)
Inductive Member : Type :=
| Own (value : JsValue)
| Builtin
| Prototype
| Missing.

Definition inheritedFrom (names : list string) (k : string) : Member :=
  if String.eqb k "__proto__" then Prototype
  else if includes names k then Builtin
  else Missing.

Definition member (v : JsValue) (k : string) : Member :=
  match get v k with
  | Some own => Own own
  | None =>
      match v with
      | VObj _ => inheritedFrom objectPrototypeNames k
      | VArr elems =>
          if String.eqb k "length"
          then Own (VNum (string_to_num (pretty (List.length elems))))
          else inheritedFrom (arrayPrototypeNames ++ objectPrototypeNames)%list k
      | _ => Missing
      end
  end.

(** The guard [!properties || typeof properties !== 'object'], negated. *)
Definition isObject (v : JsValue) : bool :=
  match v with
  | VObj _ | VArr _ => true
  | _ => false
  end.

(** Truthiness of an own member, [undefined] when there is none. *)
Definition truthy (o : option JsValue) : bool :=
  match o with
  | None => false
  | Some v => ToBoolean v
  end.

(** Truthiness of what [v[k]] reads. *)
Definition memberTruthy (m : Member) : bool :=
  match m with
  | Own v => ToBoolean v
  | Builtin | Prototype => true
  | Missing => false
  end.

(** What [res.json] sends for a field holding [v[k]]: a function is left
    out, the prototype is sent as the empty object or the empty array it
    is. *)
Definition memberJson (v : JsValue) (m : Member) : option JsValue :=
  match m with
  | Own own => Some own
  | Builtin | Missing => None
  | Prototype =>
      match v with
      | VArr _ => Some (VArr [])
      | _ => Some (VObj [])
      end
  end.

(** ** What Notion sends and accepts *)

Record RichText : Type := { plain_text : string }.
Record SelectOption : Type := { name : string }.
Record DateValue : Type := { start : string }.

(** A property value of a page, by its [type] tag. *)
Inductive Property : Type :=
| PTitle (title : list RichText)
| PRichText (rich_text : list RichText)
| PSelect (select : option SelectOption)
| PMultiSelect (multi_select : list SelectOption)
| PCheckbox (checkbox : bool)
| PDate (date : option DateValue)
| PUrl (url : option string)
| PNumber (number : option num)
| PStatus (status : option SelectOption)
| POther (type_tag : string).

Record Page : Type := {
  id : string;
  created_time : string;
  page_properties : list (string * Property)
}.

(** The [type] tag of a property definition of the database. *)
Inductive PropType : Type :=
| TTitle | TRichText | TSelect | TMultiSelect | TCheckbox
| TDate | TUrl | TNumber | TStatus
| TOther (type_tag : string).

(** A property definition: its [type], and the [options] of its
    type-specific configuration ([None] when the field is missing). *)
Record PropertySchema : Type := {
  type : PropType;
  options : option (list SelectOption)
}.

(** [database.properties] as [databases.retrieve] returns it. *)
Record Database : Type := { database_properties : list (string * PropertySchema) }.

(** One rich-text run of a write, [{ text: { content } }]. *)
Record TextRun : Type := { content : string }.

(** The value [setPropertyValue] builds for one property of a write. *)
Inductive Payload : Type :=
| WTitle (runs : list TextRun)
| WRichText (runs : list TextRun)
| WSelect (option_name : string)
| WMultiSelect (option_names : list string)
| WCheckbox (checked : bool)
| WDate (date_start : JsValue)
| WUrl (link : string)
| WNumber (value : num)
| WStatus (status_name : string).

(** ** Schema cache *)

Record Schema : Type := {
  properties : list (string * PropertySchema);
  titleProperty : option string;
  checkboxProperties : list string;
  dateProperties : list string;
  selectProperties : list string;
  textProperties : list string;
  urlProperties : list string;
  numberProperties : list string
}.

Definition isTitle (t : PropType) : bool :=
  match t with TTitle => true | _ => false end.
Definition isCheckboxOrStatus (t : PropType) : bool :=
  match t with TCheckbox | TStatus => true | _ => false end.
Definition isDate (t : PropType) : bool :=
  match t with TDate => true | _ => false end.
Definition isSelectLike (t : PropType) : bool :=
  match t with TSelect | TMultiSelect => true | _ => false end.
Definition isRichText (t : PropType) : bool :=
  match t with TRichText => true | _ => false end.
Definition isUrl (t : PropType) : bool :=
  match t with TUrl => true | _ => false end.
Definition isNumber (t : PropType) : bool :=
  match t with TNumber => true | _ => false end.

(** [Object.entries(ps).filter(([, prop]) => ...).map(([key]) => key)]. *)
Definition keysOfType (p : PropType -> bool) (ps : list (string * PropertySchema))
  : list string :=
  map fst (List.filter (fun e => p (type (snd e))) ps).

(** The object [getDatabaseSchema] assigns to the cache. *)
Definition buildSchema (database : Database) : Schema :=
  let ps := database_properties database in
  {| properties := ps;
     titleProperty := fst <$> List.find (fun e => isTitle (type (snd e))) ps;
     checkboxProperties := keysOfType isCheckboxOrStatus ps;
     dateProperties := keysOfType isDate ps;
     selectProperties := keysOfType isSelectLike ps;
     textProperties := keysOfType isRichText ps;
     urlProperties := keysOfType isUrl ps;
     numberProperties := keysOfType isNumber ps |}.

(** A call on the Notion client. *)
Inductive Call : Type :=
| DatabasesRetrieve
| DatabasesQuery
| PagesCreate (props : gmap string Payload)
| PagesUpdate (page_id : string) (props : gmap string Payload)
| PagesArchive (page_id : string).

(** The external store: each answer may depend on the calls made before. *)
Record NotionClient : Type := {
  databases_retrieve : list Call -> Result Database;
  databases_query : list Call -> Result (list Page);
  pages_create : list Call -> gmap string Payload -> Result Page;
  pages_update : list Call -> string -> gmap string Payload -> Result unit;
  pages_archive : list Call -> string -> Result unit
}.

(** The module state: the cache variable and the history of client calls. *)
Record World : Type := {
  databaseSchema : option Schema;
  calls : list Call
}.

Definition M (A : Type) : Type := World -> Result A * World.

Definition ret {A : Type} (a : A) : M A := fun w => (Ok a, w).

Definition bind {A B : Type} (m : M A) (k : A -> M B) : M B :=
  fun w =>
    match m w with
    | (Ok a, w') => k a w'
    | (Throw e, w') => (Throw e, w')
    end.

(** [try { m } catch (error) { h }]. *)
Definition catch {A : Type} (m : M A) (h : JsError -> M A) : M A :=
  fun w =>
    match m w with
    | (Ok a, w') => (Ok a, w')
    | (Throw e, w') => h e w'
    end.

(** A pure computation that may throw. *)
Definition lift {A : Type} (r : Result A) : M A := fun w => (r, w).

(** [await notion.<c>(...)]: the call is recorded, the oracle answers. *)
Definition await {A : Type} (c : Call) (answer : list Call -> Result A) : M A :=
  fun w =>
    (answer (calls w),
     {| databaseSchema := databaseSchema w; calls := calls w ++ [c] |}).

Definition setCache (s : Schema) : M unit :=
  fun w => (Ok tt, {| databaseSchema := Some s; calls := calls w |}).

Notation "x <~ m ;; k" := (bind m (fun x => k))
  (at level 100, m at next level, right associativity).

Definition getDatabaseSchema (notion : NotionClient) : M Schema :=
  fun w =>
    match databaseSchema w with
    | Some cached => ret cached w
    | None =>
        catch
          (database <~ await DatabasesRetrieve (databases_retrieve notion) ;;
           let schema := buildSchema database in
           _ <~ setCache schema ;;
           ret schema)
          (fun error => lift (Throw error))
          w
    end.

(** ** Property codec *)

(** [xs.map(t => t.plain_text).join('')]. *)
Definition plainText (runs : list RichText) : string :=
  join EmptyString (map plain_text runs).

(** [o?.name || null] and [d?.start || null]. *)
Definition stringOrNull (s : option string) : JsValue :=
  match s with
  | Some s' => if nonEmpty s' then VStr s' else VNull
  | None => VNull
  end.

(** Extract value from any Notion property; [None] is a falsy [property]. *)
Definition extractPropertyValue (property : option Property) : JsValue :=
  match property with
  | None => VNull
  | Some (PTitle title) => VStr (plainText title)
  | Some (PRichText rich_text) => VStr (plainText rich_text)
  | Some (PSelect select) => stringOrNull (name <$> select)
  | Some (PMultiSelect multi_select) => VArr (map (fun s => VStr (name s)) multi_select)
  | Some (PCheckbox checkbox) => VBool checkbox
  | Some (PDate date) => stringOrNull (start <$> date)
  | Some (PUrl url) => match url with Some u => VStr u | None => VNull end
  | Some (PNumber number) => match number with Some n => VNum n | None => VNull end
  | Some (PStatus status) => stringOrNull (name <$> status)
  | Some (POther _) => VNull
  end.

(** The [name] the status case of [setPropertyValue] sends, given
    [String(value)]:
    [match ? match.name : options[0]?.name || String(value)]. *)
Definition statusName (opts : list SelectOption) (requested : string) : string :=
  match List.find
          (fun opt => String.eqb (lowerCase (name opt)) (lowerCase requested))
          opts with
  | Some found => name found
  | None =>
      match head opts with
      | Some first => if nonEmpty (name first) then name first else requested
      | None => requested
      end
  end.

(** Set property value with correct type; [Ok None] is [null]; the
    conversions [String(value)] and [Number(value)] may throw.  The status
    case evaluates [String(value)] whatever the options: in the callback of
    [find] when there is an option, in the fallback when there is none. *)
Definition setPropertyValue (propertyName : string) (propertySchema : PropertySchema)
    (value : JsValue) : Result (option Payload) :=
  match value with
  | VUndefined | VNull => Ok None
  | _ =>
      match type propertySchema with
      | TTitle =>
          andThen (ToString value) (fun s => Ok (Some (WTitle [{| content := s |}])))
      | TRichText =>
          andThen (ToString value) (fun s => Ok (Some (WRichText [{| content := s |}])))
      | TSelect => andThen (ToString value) (fun s => Ok (Some (WSelect s)))
      | TMultiSelect =>
          match value with
          | VArr elems =>
              andThen (mapResult ToString elems)
                (fun names => Ok (Some (WMultiSelect names)))
          | _ => andThen (ToString value) (fun s => Ok (Some (WMultiSelect [s])))
          end
      | TCheckbox => Ok (Some (WCheckbox (ToBoolean value)))
      | TDate => Ok (Some (WDate value))
      | TUrl => andThen (ToString value) (fun s => Ok (Some (WUrl s)))
      | TNumber => andThen (ToNumber value) (fun n => Ok (Some (WNumber n)))
      | TStatus =>
          andThen (ToString value)
            (fun s =>
               Ok (Some (WStatus (statusName (default [] (options propertySchema)) s))))
      | TOther _ => Ok None
      end
  end.

(** The string content a title or rich-text write carries. *)
Definition textContent (p : Payload) : option string :=
  match p with
  | WTitle runs | WRichText runs => Some (join EmptyString (map content runs))
  | _ => None
  end.

(** ** Record translator: the read path *)

(** One element of the array [GET /api/tasks] answers with. *)
Record UniformRecord : Type := {
  result_id : string;
  result_createdAt : string;
  result_properties : gmap string JsValue;
  result_title : option JsValue;
  result_completed : option bool
}.

(** [result.properties[key] = extractPropertyValue(prop)] over the entries
    of [page.properties]. *)
Definition decodeProperties (ps : list (string * Property)) : gmap string JsValue :=
  fold_left (fun acc e => <[fst e := extractPropertyValue (Some (snd e))]> acc) ps ∅.

(** [result.properties[schema.titleProperty] || 'Untitled']. *)
Definition titleOf (val : option JsValue) : JsValue :=
  match val with
  | Some v => if ToBoolean v then v else VStr "Untitled"
  | None => VStr "Untitled"
  end.

(** [typeof val === 'boolean' ? val
     : (typeof val === 'string' ? [...].includes(val.toLowerCase()) : false)]. *)
Definition completedOf (val : option JsValue) : bool :=
  match val with
  | Some (VBool b) => b
  | Some (VStr s) => isDoneName s
  | _ => false
  end.

(** A property name that passes [if (name)]: present and not empty. *)
Definition truthyName (o : option string) : option string :=
  match o with
  | Some s => if nonEmpty s then Some s else None
  | None => None
  end.

(** The callback of [response.results.map] in [GET /api/tasks]. *)
Definition toUniform (schema : Schema) (page : Page) : UniformRecord :=
  let props := decodeProperties (page_properties page) in
  {| result_id := id page;
     result_createdAt := created_time page;
     result_properties := props;
     result_title :=
       match truthyName (titleProperty schema) with
       | Some t => Some (titleOf (props !! t))
       | None => None
       end;
     result_completed :=
       match truthyName (head (checkboxProperties schema)) with
       | Some checkboxProp => Some (completedOf (props !! checkboxProp))
       | None => None
       end |}.

(** ** Record translator: the write path *)

(** [key !== schema.titleProperty], negated. *)
Definition isTitleKey (schema : Schema) (key : string) : bool :=
  match titleProperty schema with
  | Some t => String.eqb key t
  | None => false
  end.

Definition isEmptyString (value : JsValue) : bool :=
  match value with
  | VStr EmptyString => true
  | _ => false
  end.

(** [notionProps[key] = formatted] on the object literal: the key
    [__proto__] sets the prototype and adds no entry. *)
Definition assign (key : string) (formatted : Payload) (notionProps : gmap string Payload)
  : gmap string Payload :=
  if String.eqb key "__proto__" then notionProps else <[key := formatted]> notionProps.

(** [if (formatted) notionProps[key] = formatted]. *)
Definition assignIfSet (key : string) (formatted : option Payload)
    (notionProps : gmap string Payload) : gmap string Payload :=
  match formatted with
  | Some payload => assign key payload notionProps
  | None => notionProps
  end.

(** The callback of the [forEach] of [POST /api/tasks], on one entry of
    [properties].  A key the schema does not define is skipped before any
    conversion: a name inherited from [Object.prototype] reads as a
    definition without [type], for which [setPropertyValue] returns null
    at once. *)
Definition createEntry (schema : Schema) (notionProps : gmap string Payload)
    (e : string * JsValue) : Result (gmap string Payload) :=
  let key := fst e in
  let value := snd e in
  if isEmptyString value && negb (isTitleKey schema key) then Ok notionProps
  else
    match assoc key (properties schema) with
    | Some propSchema =>
        andThen (setPropertyValue key propSchema value)
          (fun formatted => Ok (assignIfSet key formatted notionProps))
    | None => Ok notionProps
    end.

(** The [forEach] of [POST /api/tasks] that fills [notionProps]. *)
Definition toWritePayload (schema : Schema) (requested : list (string * JsValue))
  : Result (gmap string Payload) :=
  forEachResult (createEntry schema) requested ∅.

(** The callback of the [forEach] of [PATCH /api/tasks/:id]. *)
Definition patchEntry (schema : Schema) (notionProps : gmap string Payload)
    (e : string * JsValue) : Result (gmap string Payload) :=
  let key := fst e in
  let value := snd e in
  match assoc key (properties schema) with
  | Some propSchema =>
      andThen (setPropertyValue key propSchema value)
        (fun formatted => Ok (assignIfSet key formatted notionProps))
  | None => Ok notionProps
  end.

(** The [forEach] of [PATCH /api/tasks/:id] that fills [notionProps]. *)
Definition toWritePayloadPatch (schema : Schema) (requested : list (string * JsValue))
  : Result (gmap string Payload) :=
  forEachResult (patchEntry schema) requested ∅.

Definition doneOptions (opts : list SelectOption) : list SelectOption :=
  List.filter (fun o => isDoneName (name o)) opts.

Definition notDoneOptions (opts : list SelectOption) : list SelectOption :=
  List.filter (fun o => negb (isDoneName (name o))) opts.

(** [done[0].name]: a [TypeError] when [done] is empty. *)
Definition firstName (opts : list SelectOption) : Result string :=
  match opts with
  | o :: _ => Ok (name o)
  | [] => Throw TypeError
  end.

(** [properties.completed && done.length
       ? done[0].name : (notDone[0]?.name || done[0].name)]. *)
Definition completedStatusName (completed : JsValue) (opts : list SelectOption)
  : Result string :=
  let done := doneOptions opts in
  let notDone := notDoneOptions opts in
  if ToBoolean completed && negb (Nat.eqb (List.length done) 0) then firstName done
  else
    match notDone with
    | o :: _ => if nonEmpty (name o) then Ok (name o) else firstName done
    | [] => firstName done
    end.

(** The block of [PATCH /api/tasks/:id] guarded by
    ['completed' in properties && schema.checkboxProperties.length];
    [requestedCompleted] is [properties.completed], [None] when the key
    is not in [properties]. *)
Definition applyCompletedFlag (schema : Schema) (requestedCompleted : option JsValue)
    (notionProps : gmap string Payload) : Result (gmap string Payload) :=
  match requestedCompleted, checkboxProperties schema with
  | Some completed, cb :: _ =>
      match assoc cb (properties schema) with
      | None => Throw TypeError
      | Some ps =>
          match type ps with
          | TCheckbox => Ok (<[cb := WCheckbox (ToBoolean completed)]> notionProps)
          | TStatus =>
              match completedStatusName completed (default [] (options ps)) with
              | Ok chosen => Ok (<[cb := WStatus chosen]> notionProps)
              | Throw e => Throw e
              end
          | _ => Ok notionProps
          end
      end
  | _, _ => Ok notionProps
  end.

(** ** Route handlers *)

(** The JSON body a handler answers with. *)
Inductive Body : Type :=
| BError (error : string)
| BItems (items : list UniformRecord)
| BCreated (new_id : string) (new_title : option JsValue) (createdAt : string)
    (echoed : JsValue)
| BUpdated (page_id : string) (echoed : JsValue)
| BDeleted (page_id : string).

Record Response : Type := { statusCode : nat; body : Body }.

Definition quote : string := String (ascii_of_nat 34) EmptyString.

(** [res.status(400).json({ error: 'Database must have a title property' })]. *)
Definition MissingTitleProperty : Response :=
  {| statusCode := 400; body := BError "Database must have a title property" |}.

(** [res.status(400).json({ error: `Title property "${t}" is required` })]. *)
Definition MissingTitleValue (t : string) : Response :=
  {| statusCode := 400;
     body := BError ("Title property " ++ quote ++ t ++ quote ++ " is required") |}.

Definition PropertiesRequired : Response :=
  {| statusCode := 400; body := BError "Properties object is required" |}.

Definition serverError (message : string) : Response :=
  {| statusCode := 500; body := BError message |}.

(** GET /api/tasks *)
Definition listRecords (notion : NotionClient) : M Response :=
  catch
    (schema <~ getDatabaseSchema notion ;;
     results <~ await DatabasesQuery (databases_query notion) ;;
     ret {| statusCode := 200; body := BItems (map (toUniform schema) results) |})
    (fun _ => ret (serverError "Failed to fetch items from database")).

(** POST /api/tasks; [requested] is [req.body.properties].  The title
    guard and the echoed title read [properties[schema.titleProperty]]
    through the prototype chain; the loop goes over the own entries. *)
Definition createRecord (notion : NotionClient) (requested : JsValue) : M Response :=
  catch
    (schema <~ getDatabaseSchema notion ;;
     match truthyName (titleProperty schema) with
     | None => ret MissingTitleProperty
     | Some t =>
         if negb (isObject requested) then ret PropertiesRequired
         else if negb (memberTruthy (member requested t)) then ret (MissingTitleValue t)
         else
           notionProps <~ lift (toWritePayload schema (entries requested)) ;;
           response <~ await (PagesCreate notionProps)
                         (fun history => pages_create notion history notionProps) ;;
           ret {| statusCode := 201;
                  body := BCreated (id response)
                            (memberJson requested (member requested t))
                            (created_time response) requested |}
     end)
    (fun _ => ret (serverError "Failed to create item in database")).

(** PATCH /api/tasks/:id *)
Definition updateRecord (notion : NotionClient) (page_id : string) (requested : JsValue)
  : M Response :=
  catch
    (if negb (isObject requested) then ret PropertiesRequired
     else
       schema <~ getDatabaseSchema notion ;;
       built <~ lift (toWritePayloadPatch schema (entries requested)) ;;
       notionProps <~ lift (applyCompletedFlag schema (get requested "completed") built) ;;
       _ <~ await (PagesUpdate page_id notionProps)
              (fun history => pages_update notion history page_id notionProps) ;;
       ret {| statusCode := 200; body := BUpdated page_id requested |})
    (fun _ => ret (serverError "Failed to update item in database")).

(** DELETE /api/tasks/:id *)
Definition archiveRecord (notion : NotionClient) (page_id : string) : M Response :=
  catch
    (_ <~ await (PagesArchive page_id)
            (fun history => pages_archive notion history page_id) ;;
     ret {| statusCode := 200; body := BDeleted page_id |})
    (fun _ => ret (serverError "Failed to delete item from database")).

(** The calls of a history that write to the store. *)
Definition isWrite (c : Call) : bool :=
  match c with
  | PagesCreate _ | PagesUpdate _ _ | PagesArchive _ => true
  | DatabasesRetrieve | DatabasesQuery => false
  end.

End Model.
Arguments JsValue num : clear implicits.
Arguments Property num : clear implicits.
Arguments Payload num : clear implicits.
Arguments Page num : clear implicits.
Arguments Call num : clear implicits.
Arguments NotionClient num : clear implicits.
Arguments World num : clear implicits.
Arguments UniformRecord num : clear implicits.
Arguments Body num : clear implicits.
Arguments Response num : clear implicits.
Arguments M num A : clear implicits.

Notation "x <~ m ;; k" := (bind m (fun x => k))
  (at level 100, m at next level, right associativity).

(** ** A concrete runtime and sample data *)

(** Integers as a stand-in for the Number type, and ASCII folding as a
    stand-in for lower-casing: enough to run the model on requests that
    carry no numbers and on ASCII names. *)
#[export] Instance ZNumber : JsNumber Z := {|
  num_truthy z := negb (Z.eqb z 0);
  num_to_string z := pretty z;
  string_to_num _ := 0%Z;
  bool_to_num b := if b then 1%Z else 0%Z;
  lowerCase := toLowerCase
|}.

Definition statusOf (names : list string) : PropertySchema :=
  {| type := TStatus; options := Some (map (fun n => {| name := n |}) names) |}.

Definition plain (t : PropType) : PropertySchema := {| type := t; options := None |}.

(** A database with a title, a status with two choices, and a text column. *)
Definition taskDatabase : Database :=
  {| database_properties :=
       [("Name", plain TTitle);
        ("Status", statusOf ["Todo"; "Done"]);
        ("Notes", plain TRichText)] |}.

Definition taskSchema : Schema := buildSchema taskDatabase.

(** A database without a title column and without a boolean-like column. *)
Definition bareDatabase : Database :=
  {| database_properties := [("Notes", plain TRichText)] |}.

Definition bareSchema : Schema := buildSchema bareDatabase.

(** A page of [taskDatabase]. *)
Definition samplePage : Page Z :=
  {| id := "page-1";
     created_time := "2024-01-01T00:00:00.000Z";
     page_properties :=
       [("Name", PTitle [{| plain_text := "Buy " |}; {| plain_text := "milk" |}]);
        ("Status", PStatus (Some {| name := "Done" |}));
        ("Notes", PRichText [])] |}.

(** A client whose first [databases.retrieve] is rejected and whose later
    calls succeed. *)
Definition flakyNotion : NotionClient Z :=
  {| databases_retrieve history :=
       match history with
       | [] => Throw (APIResponseError "service_unavailable")
       | _ => Ok taskDatabase
       end;
     databases_query _ := Ok [samplePage];
     pages_create _ _ := Ok samplePage;
     pages_update _ _ _ := Ok tt;
     pages_archive _ _ := Ok tt |}.

(** A client that always answers, over a given database. *)
Definition steadyNotion (database : Database) : NotionClient Z :=
  {| databases_retrieve _ := Ok database;
     databases_query _ := Ok [samplePage];
     pages_create _ _ := Ok samplePage;
     pages_update _ _ _ := Ok tt;
     pages_archive _ _ := Ok tt |}.

Definition freshWorld : World Z := {| databaseSchema := None; calls := [] |}.

(** A database whose status column declares a single choice, with an empty
    name. *)
Definition blankChoiceDatabase : Database :=
  {| database_properties :=
       [("Name", plain TTitle); ("Status", statusOf [EmptyString])] |}.



(** ** Vocabulary of the statements *)

(** The history after one more [databases.retrieve]. *)
Definition fetched {num : Type} (w : World num) : list (Call num) :=
  (calls w ++ [DatabasesRetrieve])%list.

(** The rich-text runs of a Title- or Text-kind property value. *)
Definition richTextOf {num : Type} (property : Property num) : option (list RichText) :=
  match property with
  | PTitle runs | PRichText runs => Some runs
  | _ => None
  end.

(** Title and Text, the two text-bearing kinds. *)
Definition isTextType (t : PropType) : bool :=
  match t with
  | TTitle | TRichText => true
  | _ => false
  end.

(** What keeps a requested entry in the payload of a create: a definition
    under that key, no empty-string value unless the key is the title
    property, and an encoding that is not null. *)
Definition keptOnCreate {num : Type} `{!JsNumber num} (schema : Schema)
    (key : string) (value : JsValue num) : Prop :=
  exists propSchema,
    assoc key (properties schema) = Some propSchema
    /\ (value = VStr EmptyString -> titleProperty schema = Some key)
    /\ exists formatted, setPropertyValue key propSchema value = Ok (Some formatted).

(** What keeps a requested entry in the payload of an update: a definition
    under that key and an encoding that is not null. *)
Definition keptOnUpdate {num : Type} `{!JsNumber num} (schema : Schema)
    (key : string) (value : JsValue num) : Prop :=
  exists propSchema,
    assoc key (properties schema) = Some propSchema
    /\ exists formatted, setPropertyValue key propSchema value = Ok (Some formatted).

(** The requested text, lower-cased, is the lower-cased name of a choice. *)
Definition matchesChoice {num : Type} `{!JsNumber num} (requested : string)
    (o : SelectOption) : Prop :=
  lowerCase (name o) = lowerCase requested.

(** How an element of an array prints inside [String(array)]. *)
Definition printElement {num : Type} `{!JsNumber num} (x : JsValue num) : Result string :=
  match x with
  | VUndefined | VNull => Ok EmptyString
  | _ => ToString x
  end.

(** Every value of a request has a string form. *)
Definition allPrintable {num : Type} `{!JsNumber num}
    (requested : list (string * JsValue num)) : Prop :=
  forall key value, In (key, value) requested -> exists s, ToString value = Ok s.

(** ** The schema route *)

(** One element of the [properties] array [GET /api/schema] answers with. *)
Record PropertyInfo : Type := {
  info_name : string;
  info_type : PropType;
  info_options : option (list string)
}.

(** [['select', 'multi_select', 'status'].includes(prop.type)]. *)
Definition isChoiceType (t : PropType) : bool :=
  match t with
  | TSelect | TMultiSelect | TStatus => true
  | _ => false
  end.

(** The callback of [Object.entries(schema.properties).map]. *)
Definition describeProperty (e : string * PropertySchema) : PropertyInfo :=
  {| info_name := fst e;
     info_type := type (snd e);
     info_options :=
       if isChoiceType (type (snd e))
       then Some (map name (default [] (options (snd e))))
       else None |}.

Inductive SchemaBody : Type :=
| SError (error : string)
| SListing (title_property : option string) (listed : list PropertyInfo).

(** GET /api/schema: the status code and the body. *)
Definition describeSchema {num : Type} (notion : NotionClient num)
  : M num (nat * SchemaBody) :=
  catch
    (schema <~ getDatabaseSchema notion ;;
     ret (200, SListing (titleProperty schema) (map describeProperty (properties schema))))
    (fun _ => ret (500, SError "Failed to fetch database schema")).

(** ** The front end of the adapter

    The component keeps the list of items and an error message; a [fetch]
    of a route is the handler of that route run on the request. *)

(** An item of the list: what the toggle reads and writes, and the other
    fields ([title], [createdAt], [properties]), which are copied. *)
Record Item (A : Type) : Type := {
  item_id : string;
  item_completed : option bool;
  item_fields : A
}.
Arguments item_id {A} _.
Arguments item_completed {A} _.
Arguments item_fields {A} _.

Record AppState (A : Type) : Type := {
  items : list (Item A);
  error : string
}.
Arguments items {A} _.
Arguments error {A} _.

(** [response.ok]. *)
Definition isOkStatus (code : nat) : bool := (200 <=? code)%nat && (code <=? 299)%nat.

(** The truthiness of [i.completed]. *)
Definition shownCompleted {A : Type} (i : Item A) : bool :=
  default false (item_completed i).

(** [{ ...i, completed: !i.completed }]. *)
Definition flipItem {A : Type} (i : Item A) : Item A :=
  {| item_id := item_id i;
     item_completed := Some (negb (shownCompleted i));
     item_fields := item_fields i |}.

(** [items.map(i => i.id === id ? { ...i, completed: !i.completed } : i)]. *)
Definition flipById {A : Type} (id : string) (l : list (Item A)) : list (Item A) :=
  map (fun i => if String.eqb (item_id i) id then flipItem i else i) l.

(** [items.filter(i => i.id !== id)]. *)
Definition removeById {A : Type} (id : string) (l : list (Item A)) : list (Item A) :=
  List.filter (fun i => negb (String.eqb (item_id i) id)) l.

(** Toggle item completion: the state once the request has been answered. *)
Definition toggleItemCompletion {num : Type} `{!JsNumber num} {A : Type}
    (notion : NotionClient num) (id : string) (st : AppState A) : M num (AppState A) :=
  match List.find (fun i => String.eqb (item_id i) id) (items st) with
  | None => ret st
  | Some item =>
      let reverted :=
        {| items := items st;
           error := "Failed to update item status. Please try again." |} in
      catch
        (response <~ updateRecord notion id
                       (VObj [("completed", VBool (negb (shownCompleted item)))]) ;;
         if isOkStatus (statusCode response)
         then ret {| items := flipById id (items st); error := error st |}
         else ret reverted)
        (fun _ => ret reverted)
  end.

(** Delete an item: the state once the request has been answered. *)
Definition deleteItem {num : Type} {A : Type}
    (notion : NotionClient num) (id : string) (st : AppState A) : M num (AppState A) :=
  let reverted :=
    {| items := items st; error := "Failed to delete item. Please try again." |} in
  catch
    (response <~ archiveRecord notion id ;;
     if isOkStatus (statusCode response)
     then ret {| items := removeById id (items st); error := error st |}
     else ret reverted)
    (fun _ => ret reverted).

(** ** The stand-alone task list (local state only) *)

Record Task : Type := {
  task_id : string;
  task_title : string;
  task_completed : bool;
  task_createdAt : string
}.

(** [tasks.map(task => task.id === id
       ? { ...task, completed: !task.completed } : task)]. *)
Definition toggleTask (tasks : list Task) (id : string) : list Task :=
  map (fun task =>
         if String.eqb (task_id task) id
         then {| task_id := task_id task;
                 task_title := task_title task;
                 task_completed := negb (task_completed task);
                 task_createdAt := task_createdAt task |}
         else task)
      tasks.

(** [tasks.filter(task => task.id !== id)]. *)
Definition deleteTask (tasks : list Task) (id : string) : list Task :=
  List.filter (fun task => negb (String.eqb (task_id task) id)) tasks.

(** ** More vocabulary *)

(** What the create loop computes for one requested entry: the payload
    to write, if any, unless a conversion throws. *)
Definition createEncoding {num : Type} `{!JsNumber num} (schema : Schema)
    (key : string) (value : JsValue num) : Result (option (Payload num)) :=
  if isEmptyString value && negb (isTitleKey schema key) then Ok None
  else
    match assoc key (properties schema) with
    | Some propSchema => setPropertyValue key propSchema value
    | None => Ok None
    end.

(** What the update loop computes for one requested entry. *)
Definition patchEncoding {num : Type} `{!JsNumber num} (schema : Schema)
    (key : string) (value : JsValue num) : Result (option (Payload num)) :=
  match assoc key (properties schema) with
  | Some propSchema => setPropertyValue key propSchema value
  | None => Ok None
  end.

(** A property value that holds nothing to decode. *)
Definition isBlank {num : Type} (property : Property num) : bool :=
  match property with
  | PSelect None | PStatus None | PDate None | PUrl None | PNumber None => true
  | PSelect (Some o) | PStatus (Some o) => negb (nonEmpty (name o))
  | PDate (Some d) => negb (nonEmpty (start d))
  | POther _ => true
  | _ => false
  end.

(** The keys of an object are pairwise distinct. *)
Definition distinctKeys {V : Type} (o : list (string * V)) : Prop :=
  NoDup (map fst o).

(** The store writes of a history. *)
Definition writes {num : Type} (history : list (Call num)) : list (Call num) :=
  List.filter isWrite history.

(** A run of a handler from a world: it answers (it does not throw), with
    one of the four status codes the routes use; the history only grows, by
    at most one store write; a filled cache is left as it is. *)
Definition wellBehaved {num : Type} (run : M num (Response num)) (w : World num)
  : Prop :=
  exists response w' more,
    run w = (Ok response, w')
    /\ calls w' = (calls w ++ more)%list
    /\ (List.length (writes more) <= 1)%nat
    /\ (forall cached, databaseSchema w = Some cached -> databaseSchema w' = Some cached)
    /\ In (statusCode response) [200; 201; 400; 500]%nat.

(** The world after one more call. *)
Definition afterCall {num : Type} (w : World num) (c : Call num) : World num :=
  {| databaseSchema := databaseSchema w; calls := (calls w ++ [c])%list |}.

(** A database with a checkbox column named like the flag, and a status
    column after it. *)
Definition checkboxDatabase : Database :=
  {| database_properties :=
       [("Name", plain TTitle);
        ("completed", plain TCheckbox);
        ("Stage", statusOf ["Open"; "Complete"])] |}.

(** A client that answers the schema and rejects every write. *)
Definition readOnlyNotion (database : Database) : NotionClient Z :=
  {| databases_retrieve _ := Ok database;
     databases_query _ := Ok [samplePage];
     pages_create _ _ := Throw (APIResponseError "restricted_resource");
     pages_update _ _ _ := Throw (APIResponseError "restricted_resource");
     pages_archive _ _ := Throw (APIResponseError "restricted_resource") |}.

(** A database whose title column is named like a member of
    [Object.prototype]. *)
Definition constructorDatabase : Database :=
  {| database_properties := [("constructor", plain TTitle); ("Notes", plain TRichText)] |}.

(** Two items as [GET /api/tasks] lists them, and one as [POST] echoes it. *)
Definition sampleItems : list (Item string) :=
  [{| item_id := "page-1"; item_completed := Some true; item_fields := "Buy milk" |};
   {| item_id := "page-2"; item_completed := Some false; item_fields := "Call mom" |};
   {| item_id := "page-3"; item_completed := None; item_fields := "Pay rent" |}].

Definition sampleTasks : list Task :=
  [{| task_id := "1"; task_title := "Finish math homework"; task_completed := false;
      task_createdAt := "2024-01-01" |};
   {| task_id := "2"; task_title := "Read chapter 5"; task_completed := true;
      task_createdAt := "2024-01-01" |}].

(** ** Schema cache: retry after a failure, reuse after a success *)

Section SchemaCache.
Context {num : Type} `{!JsNumber num}.
Implicit Types (notion : NotionClient num) (w : World num).

Lemma getDatabaseSchema_cached notion w cached :
  databaseSchema w = Some cached ->
  getDatabaseSchema notion w = (Ok cached, w).
Proof.
  intros Hc. unfold getDatabaseSchema. now rewrite Hc.
Qed.

Lemma getDatabaseSchema_failure notion w e :
  databaseSchema w = None ->
  databases_retrieve notion (calls w) = Throw e ->
  getDatabaseSchema notion w
  = (Throw e, {| databaseSchema := None; calls := fetched w |}).
Proof.
  intros Hc Hr. unfold getDatabaseSchema, catch, bind, await, lift.
  rewrite Hc. cbn. now rewrite Hr.
Qed.

Lemma getDatabaseSchema_success notion w database :
  databaseSchema w = None ->
  databases_retrieve notion (calls w) = Ok database ->
  getDatabaseSchema notion w
  = (Ok (buildSchema database),
     {| databaseSchema := Some (buildSchema database); calls := fetched w |}).
Proof.
  intros Hc Hr. unfold getDatabaseSchema, catch, bind, await, setCache, ret.
  rewrite Hc. cbn. now rewrite Hr.
Qed.

(** Whatever the outcome, [getDatabaseSchema] adds at most one
    [databases.retrieve] to the history, and no other call. *)
Lemma getDatabaseSchema_calls notion w :
  calls (snd (getDatabaseSchema notion w)) = calls w
  \/ calls (snd (getDatabaseSchema notion w)) = fetched w.
Proof.
  destruct (databaseSchema w) as [cached|] eqn:Hc.
  - left. now rewrite (getDatabaseSchema_cached _ _ _ Hc).
  - right. destruct (databases_retrieve notion (calls w)) as [database|e] eqn:Hr.
    + now rewrite (getDatabaseSchema_success _ _ _ Hc Hr).
    + now rewrite (getDatabaseSchema_failure _ _ _ Hc Hr).
Qed.

Lemma writes_app (h : list (Call num)) (c : Call num) :
  List.filter isWrite (h ++ [c])%list
  = (List.filter isWrite h ++ (if isWrite c then [c] else []))%list.
Proof.
  rewrite List.filter_app. cbn. now destruct (isWrite c).
Qed.

Lemma getDatabaseSchema_no_write notion w :
  List.filter isWrite (calls (snd (getDatabaseSchema notion w)))
  = List.filter isWrite (calls w).
Proof.
  destruct (getDatabaseSchema_calls notion w) as [-> | ->]; [reflexivity|].
  unfold fetched. rewrite writes_app. cbn. apply app_nil_r.
Qed.

End SchemaCache.

(** C6. When the cache is empty and the fetch is rejected, the error is
    propagated, the cache stays empty and the fetch was attempted; on an
    empty cache every call attempts the fetch again, so a later call whose
    fetch succeeds returns the schema and fills the cache; once the cache is
    filled, the call returns the cached schema and changes nothing (no
    fetch), in particular right after a successful fetch. *)
Theorem getDatabaseSchema_retries_then_caches {num : Type} `{!JsNumber num}
    (notion : NotionClient num) (w : World num) :
  (forall e,
      databaseSchema w = None ->
      databases_retrieve notion (calls w) = Throw e ->
      exists w',
        getDatabaseSchema notion w = (Throw e, w')
        /\ databaseSchema w' = None
        /\ calls w' = (calls w ++ [DatabasesRetrieve])%list
        /\ calls (snd (getDatabaseSchema notion w'))
           = (calls w' ++ [DatabasesRetrieve])%list)
  /\ (forall database,
      databaseSchema w = None ->
      databases_retrieve notion (calls w) = Ok database ->
      exists w',
        getDatabaseSchema notion w = (Ok (buildSchema database), w')
        /\ databaseSchema w' = Some (buildSchema database)
        /\ calls w' = (calls w ++ [DatabasesRetrieve])%list
        /\ getDatabaseSchema notion w' = (Ok (buildSchema database), w'))
  /\ (forall cached,
      databaseSchema w = Some cached ->
      getDatabaseSchema notion w = (Ok cached, w)).
Proof.
  split; [|split].
  - intros e Hc Hr.
    set (w' := {| databaseSchema := None; calls := fetched w |}).
    exists w'. split; [apply (getDatabaseSchema_failure _ _ _ Hc Hr)|].
    split; [reflexivity|]. split; [reflexivity|].
    destruct (databases_retrieve notion (calls w')) as [database|e'] eqn:Hr'.
    + now rewrite (getDatabaseSchema_success notion w' database eq_refl Hr').
    + now rewrite (getDatabaseSchema_failure notion w' e' eq_refl Hr').
  - intros database Hc Hr. eexists.
    split; [apply (getDatabaseSchema_success _ _ _ Hc Hr)|].
    split; [reflexivity|]. split; [reflexivity|].
    now apply getDatabaseSchema_cached.
  - intros cached Hc. now apply getDatabaseSchema_cached.
Qed.

(** The flaky client: the first call fails and leaves the cache empty, the
    second call fetches again and succeeds, the third is served from the
    cache. *)
Lemma getDatabaseSchema_retries_then_caches_witness :
  let failed := {| databaseSchema := None; calls := [DatabasesRetrieve] |} in
  let filled := {| databaseSchema := Some taskSchema;
                   calls := [DatabasesRetrieve; DatabasesRetrieve] |} in
  (exists w', getDatabaseSchema flakyNotion freshWorld
              = (Throw (APIResponseError "service_unavailable"), w')
              /\ databaseSchema w' = None
              /\ calls w' = [DatabasesRetrieve]
              /\ calls (snd (getDatabaseSchema flakyNotion w'))
                 = (calls w' ++ [DatabasesRetrieve])%list)
  /\ (exists w', getDatabaseSchema flakyNotion failed = (Ok taskSchema, w')
              /\ databaseSchema w' = Some taskSchema
              /\ calls w' = [DatabasesRetrieve; DatabasesRetrieve]
              /\ getDatabaseSchema flakyNotion w' = (Ok taskSchema, w'))
  /\ getDatabaseSchema flakyNotion filled = (Ok taskSchema, filled).
Proof.
  intros failed filled. split; [|split].
  - exact (proj1 (getDatabaseSchema_retries_then_caches flakyNotion freshWorld)
             _ eq_refl eq_refl).
  - exact (proj1 (proj2 (getDatabaseSchema_retries_then_caches flakyNotion failed))
             _ eq_refl eq_refl).
  - exact (proj2 (proj2 (getDatabaseSchema_retries_then_caches flakyNotion filled))
             _ eq_refl).
Defined.

(** ** Codec: text survives decoding and re-encoding *)

(** C8. For every raw Title- or Text-kind property value, the decoded value
    is the string made of its runs, and encoding that string for a Title- or
    Text-kind property yields a payload (never null) whose text content is
    that same string, carried as a single run. *)
Theorem text_decode_encode_identity {num : Type} `{!JsNumber num}
    (propertyName : string) (raw : Property num) (runs : list RichText)
    (propertySchema : PropertySchema) :
  richTextOf raw = Some runs ->
  isTextType (type propertySchema) = true ->
  let decoded := extractPropertyValue (Some raw) in
  decoded = VStr (plainText runs)
  /\ exists payload,
       setPropertyValue propertyName propertySchema decoded = Ok (Some payload)
       /\ textContent payload = Some (plainText runs)
       /\ (payload = WTitle [{| content := plainText runs |}]
           \/ payload = WRichText [{| content := plainText runs |}]).
Proof.
  intros Hraw Hkind decoded.
  assert (Hd : decoded = VStr (plainText runs)).
  { unfold decoded. destruct raw; cbn in Hraw; try discriminate;
      injection Hraw as ->; reflexivity. }
  split; [exact Hd|]. rewrite Hd. unfold setPropertyValue.
  destruct (type propertySchema); cbn in Hkind; try discriminate;
    eexists; (split; [reflexivity|]); cbn; auto.
Qed.

(** A title of two runs read from [samplePage] and written back. *)
Lemma text_decode_encode_identity_witness :
  let raw : Property Z := PTitle [{| plain_text := "Buy " |}; {| plain_text := "milk" |}] in
  let decoded := extractPropertyValue (Some raw) in
  decoded = VStr "Buy milk"
  /\ exists payload,
       setPropertyValue "Name" (plain TTitle) decoded = Ok (Some payload)
       /\ textContent payload = Some "Buy milk"
       /\ (payload = WTitle [{| content := "Buy milk" |}]
           \/ payload = WRichText [{| content := "Buy milk" |}]).
Proof.
  exact (text_decode_encode_identity "Name"
           (PTitle [{| plain_text := "Buy " |}; {| plain_text := "milk" |}])
           [{| plain_text := "Buy " |}; {| plain_text := "milk" |}]
           (plain TTitle) eq_refl eq_refl).
Defined.

(** ** Creating a record *)

Section Create.
Context {num : Type} `{!JsNumber num}.
Implicit Types (notion : NotionClient num) (w : World num) (requested : JsValue num).

(** [createRecord] once the schema is known: the three guards, then the
    single [pages.create]. *)
Lemma createRecord_with_schema notion w w1 schema requested :
  getDatabaseSchema notion w = (Ok schema, w1) ->
  createRecord notion requested w
  = match truthyName (titleProperty schema) with
    | None => (Ok MissingTitleProperty, w1)
    | Some t =>
        if negb (isObject requested) then (Ok PropertiesRequired, w1)
        else if negb (memberTruthy (member requested t))
        then (Ok (MissingTitleValue t), w1)
        else
          match toWritePayload schema (entries requested) with
          | Throw _ => (Ok (serverError "Failed to create item in database"), w1)
          | Ok notionProps =>
              let w2 := {| databaseSchema := databaseSchema w1;
                           calls := (calls w1 ++ [PagesCreate notionProps])%list |} in
              match pages_create notion (calls w1) notionProps with
              | Ok response =>
                  (Ok {| statusCode := 201;
                         body := BCreated (id response)
                                   (memberJson requested (member requested t))
                                   (created_time response) requested |}, w2)
              | Throw _ => (Ok (serverError "Failed to create item in database"), w2)
              end
          end
    end.
Proof.
  intros Hs. unfold createRecord, catch, bind. rewrite Hs.
  destruct (truthyName (titleProperty schema)) as [t|]; [|reflexivity].
  destruct (isObject requested); [|reflexivity].
  destruct (memberTruthy (member requested t)); [|reflexivity].
  cbn. unfold lift.
  destruct (toWritePayload schema (entries requested)) as [notionProps|e]; [|reflexivity].
  unfold await, ret.
  destruct (pages_create notion (calls w1) _); reflexivity.
Qed.

(** What makes the guard [!properties[t]] of [createRecord] fire on an
    object: no own member [t] and no inherited one, or an own member that
    is falsy. *)
Lemma memberTruthy_object (members : list (string * JsValue num)) (t : string) :
  memberTruthy (member (VObj members) t)
  = match assoc t members with
    | Some v => ToBoolean v
    | None => includes objectPrototypeNames t
    end.
Proof.
  unfold member, get. cbn [entries].
  destruct (assoc t members) as [v|]; [reflexivity|].
  unfold inheritedFrom.
  destruct (String.eqb_spec t "__proto__") as [->|Hne]; [reflexivity|].
  destruct (includes objectPrototypeNames t); reflexivity.
Qed.

Lemma includes_In (l : list string) (k : string) : includes l k = true <-> In k l.
Proof.
  unfold includes. rewrite existsb_exists. split.
  - intros (x & Hin & Hx). apply String.eqb_eq in Hx. now subst.
  - intros Hin. exists k. split; [exact Hin|apply String.eqb_refl].
Qed.

Lemma schema_lookup_no_write notion w w1 schema :
  getDatabaseSchema notion w = (Ok schema, w1) ->
  List.filter isWrite (calls w1) = List.filter isWrite (calls w).
Proof.
  intros Hs. pose proof (getDatabaseSchema_no_write notion w) as Hw.
  now rewrite Hs in Hw.
Qed.

End Create.

(** C5. A request that carries no title at all is accepted when the title
    column bears the name of a member of [Object.prototype]: on a database
    whose title column is named "constructor", [createRecord] on the empty
    properties object gets past the guard [!properties[schema.titleProperty]]
    (the member read is the inherited constructor), sends [pages.create]
    with no property at all, and answers 201; the answer has no [title]
    field, a function being left out of the JSON body. *)
Theorem createRecord_inherited_title_accepted :
  let schema := buildSchema constructorDatabase in
  let requested : JsValue Z := VObj [] in
  titleProperty schema = Some "constructor"
  /\ get requested "constructor" = None
  /\ member requested "constructor" = Builtin
  /\ toWritePayload schema (entries requested) = Ok ∅
  /\ createRecord (steadyNotion constructorDatabase) requested freshWorld
     = (Ok {| statusCode := 201;
              body := BCreated "page-1" None "2024-01-01T00:00:00.000Z" requested |},
        {| databaseSchema := Some schema;
           calls := [DatabasesRetrieve; PagesCreate ∅] |})
  /\ fst (createRecord (steadyNotion constructorDatabase) requested freshWorld)
     <> Ok (MissingTitleValue "constructor").
Proof.
  cbv zeta. split; [reflexivity|]. split; [reflexivity|]. split; [reflexivity|].
  split; [reflexivity|]. split; [reflexivity|discriminate].
Qed.

(** X29. Where the title guard of [createRecord] holds.  With the schema at
    hand and [t] its title property (a name that passes the guard
    [!schema.titleProperty]), [createRecord] answers the missing-title-value
    error for every request whose [properties[t]] reads falsy: an object with
    no own member [t], when [t] names no member of [Object.prototype] (so the
    empty object too), and an object whose own [t] is the empty string, null,
    false, or any other falsy value.  It answers the missing-title-property
    error when the schema has no title property.  In each case the handler
    stops where the schema lookup left the world, whose history holds no more
    store writes than before the request. *)
Theorem createRecord_requires_title {num : Type} `{!JsNumber num}
    (notion : NotionClient num) (w w1 : World num) (schema : Schema)
    (requested : JsValue num) :
  getDatabaseSchema notion w = (Ok schema, w1) ->
  List.filter isWrite (calls w1) = List.filter isWrite (calls w)
  /\ (titleProperty schema = None ->
      createRecord notion requested w = (Ok MissingTitleProperty, w1))
  /\ (forall t,
      truthyName (titleProperty schema) = Some t ->
      isObject requested = true ->
      memberTruthy (member requested t) = false ->
      createRecord notion requested w = (Ok (MissingTitleValue t), w1))
  /\ (forall t members,
      truthyName (titleProperty schema) = Some t ->
      requested = VObj members ->
      (get requested t = None /\ ~ In t objectPrototypeNames)
      \/ (exists v, get requested t = Some v /\ ToBoolean v = false) ->
      createRecord notion requested w = (Ok (MissingTitleValue t), w1))
  /\ (forall t,
      truthyName (titleProperty schema) = Some t ->
      ~ In t objectPrototypeNames ->
      createRecord notion (VObj []) w = (Ok (MissingTitleValue t), w1)).
Proof.
  intros Hs. split; [exact (schema_lookup_no_write _ _ _ _ Hs)|].
  assert (Hguard : forall t req,
    truthyName (titleProperty schema) = Some t ->
    isObject req = true ->
    memberTruthy (member req t) = false ->
    createRecord notion req w = (Ok (MissingTitleValue t), w1)).
  { intros t req Ht Hobj Hval.
    rewrite (createRecord_with_schema _ _ _ _ _ Hs), Ht, Hobj, Hval. reflexivity. }
  assert (Habsent : forall t, ~ In t objectPrototypeNames ->
    includes objectPrototypeNames t = false).
  { intros t Hnot. destruct (includes objectPrototypeNames t) eqn:Hin; [|reflexivity].
    apply includes_In in Hin. contradiction. }
  split; [|split; [|split]].
  - intros Hnone. rewrite (createRecord_with_schema _ _ _ _ _ Hs), Hnone. reflexivity.
  - intros t Ht Hobj Hval. exact (Hguard t requested Ht Hobj Hval).
  - intros t members Ht -> Hval. apply (Hguard t (VObj members) Ht eq_refl).
    rewrite memberTruthy_object. unfold get in Hval. cbn [entries] in Hval.
    destruct Hval as [[-> Hnot] | (v & -> & Hv)]; [exact (Habsent t Hnot)|exact Hv].
  - intros t Ht Hnot. apply (Hguard t (VObj []) Ht eq_refl).
    rewrite memberTruthy_object. exact (Habsent t Hnot).
Qed.

(** On the task database a request without [Name], or with an empty or
    null [Name], is refused; on the database without a title column every
    request is refused; the history holds the schema fetch only. *)
Lemma createRecord_requires_title_witness :
  let fetchedWorld (d : Database) : World Z :=
    {| databaseSchema := Some (buildSchema d); calls := [DatabasesRetrieve] |} in
  createRecord (steadyNotion taskDatabase) (VObj [("Notes", VStr "x")]) freshWorld
  = (Ok (MissingTitleValue "Name"), fetchedWorld taskDatabase)
  /\ createRecord (steadyNotion taskDatabase) (VObj [("Name", VStr EmptyString)]) freshWorld
     = (Ok (MissingTitleValue "Name"), fetchedWorld taskDatabase)
  /\ createRecord (steadyNotion taskDatabase) (VObj [("Name", VNull)]) freshWorld
     = (Ok (MissingTitleValue "Name"), fetchedWorld taskDatabase)
  /\ createRecord (steadyNotion taskDatabase) (VObj []) freshWorld
     = (Ok (MissingTitleValue "Name"), fetchedWorld taskDatabase)
  /\ createRecord (steadyNotion bareDatabase) (VObj [("Notes", VStr "x")]) freshWorld
     = (Ok MissingTitleProperty, fetchedWorld bareDatabase).
Proof.
  intros fetchedWorld.
  pose proof (fun d r =>
    createRecord_requires_title (steadyNotion d) freshWorld (fetchedWorld d)
      (buildSchema d) r eq_refl) as H.
  assert (Hname : ~ In "Name" objectPrototypeNames).
  { cbn. intros Hin. repeat (destruct Hin as [Hin|Hin]; [discriminate Hin|]). exact Hin. }
  split; [|split; [|split; [|split]]].
  - exact (proj1 (proj2 (proj2 (H taskDatabase (VObj [("Notes", VStr "x")]))))
             "Name" eq_refl eq_refl eq_refl).
  - exact (proj1 (proj2 (proj2 (proj2 (H taskDatabase (VObj [("Name", VStr EmptyString)])))))
             "Name" _ eq_refl eq_refl
             (or_intror (ex_intro _ (VStr EmptyString) (conj eq_refl eq_refl)))).
  - exact (proj1 (proj2 (proj2 (proj2 (H taskDatabase (VObj [("Name", VNull)])))))
             "Name" _ eq_refl eq_refl
             (or_intror (ex_intro _ VNull (conj eq_refl eq_refl)))).
  - exact (proj2 (proj2 (proj2 (proj2 (H taskDatabase (VObj []))))) "Name" eq_refl Hname).
  - exact (proj1 (proj2 (H bareDatabase (VObj [("Notes", VStr "x")]))) eq_refl).
Defined.

(** C10. When [createRecord] gets past its guards, builds its payload and
    the store accepts the page, the answer carries the request's own
    [properties] value, unchanged, as its [properties], and what
    [properties[t]] reads on the request as its [title]: the request's own
    title value, unchanged, whenever the request has one.  Of the page the
    store returned the answer takes the [id] and the [created_time] only;
    nothing else of that page (its decoded properties in particular) reaches
    the answer. *)
Theorem createRecord_echoes_request {num : Type} `{!JsNumber num}
    (notion : NotionClient num) (w w1 : World num) (schema : Schema)
    (requested : JsValue num) (t : string) (notionProps : gmap string (Payload num))
    (response : Page num) :
  getDatabaseSchema notion w = (Ok schema, w1) ->
  truthyName (titleProperty schema) = Some t ->
  isObject requested = true ->
  memberTruthy (member requested t) = true ->
  toWritePayload schema (entries requested) = Ok notionProps ->
  pages_create notion (calls w1) notionProps = Ok response ->
  fst (createRecord notion requested w)
  = Ok {| statusCode := 201;
          body := BCreated (id response) (memberJson requested (member requested t))
                    (created_time response) requested |}
  /\ (forall v, get requested t = Some v ->
      memberJson requested (member requested t) = Some v).
Proof.
  intros Hs Ht Hobj Hval Hbuilt Hcreate. split.
  - rewrite (createRecord_with_schema _ _ _ _ _ Hs), Ht, Hobj, Hval, Hbuilt. cbn.
    now rewrite Hcreate.
  - intros v Hv. unfold member. now rewrite Hv.
Qed.

(** The store answers with [samplePage], titled "Buy milk"; the answer to
    the caller still says "Call mom", as requested. *)
Lemma createRecord_echoes_request_witness :
  let requested : JsValue Z := VObj [("Name", VStr "Call mom"); ("Notes", VStr "today")] in
  fst (createRecord (steadyNotion taskDatabase) requested freshWorld)
  = Ok {| statusCode := 201;
          body := BCreated "page-1" (Some (VStr "Call mom"))
                    "2024-01-01T00:00:00.000Z" requested |}
  /\ (forall v, get requested "Name" = Some v ->
      memberJson requested (member requested "Name") = Some v).
Proof.
  intros requested.
  exact (createRecord_echoes_request (steadyNotion taskDatabase) freshWorld
           {| databaseSchema := Some taskSchema; calls := [DatabasesRetrieve] |}
           taskSchema requested "Name"
           (<["Notes" := WRichText [{| content := "today" |}]]>
              (<["Name" := WTitle [{| content := "Call mom" |}]]> ∅))
           samplePage
           eq_refl eq_refl eq_refl eq_refl eq_refl eq_refl).
Defined.

(** ** The completed flag on the update path *)

Section Completed.
Context {num : Type} `{!JsNumber num}.
Implicit Types (schema : Schema) (notionProps : gmap string (Payload num)).
Implicit Types (opts : list SelectOption) (completed : JsValue num).

Lemma nonEmpty_true (s : string) : s <> EmptyString -> nonEmpty s = true.
Proof. destruct s; [congruence|reflexivity]. Qed.

Lemma doneOptions_In opts o :
  In o (doneOptions opts) <-> In o opts /\ isDoneName (name o) = true.
Proof. unfold doneOptions. apply List.filter_In. Qed.

Lemma notDoneOptions_In opts o :
  In o (notDoneOptions opts) <-> In o opts /\ isDoneName (name o) = false.
Proof.
  unfold notDoneOptions. rewrite List.filter_In.
  now rewrite negb_true_iff.
Qed.

(** Every declared choice falls in one of the two subsets. *)
Lemma options_split opts o :
  In o opts <-> In o (doneOptions opts) \/ In o (notDoneOptions opts).
Proof.
  rewrite doneOptions_In, notDoneOptions_In. split.
  - intros Hin. destruct (isDoneName (name o)); auto.
  - intros [[Hin _] | [Hin _]]; exact Hin.
Qed.

Lemma isDoneName_spec (s : string) :
  isDoneName s = true <-> In (toLowerCase s) doneWords.
Proof.
  unfold isDoneName, includes. rewrite existsb_exists. split.
  - intros (x & Hin & Heq). apply String.eqb_eq in Heq. now subst.
  - intros Hin. exists (toLowerCase s). split; [exact Hin|apply String.eqb_refl].
Qed.

(** The name the status branch picks, by cases on the two subsets, when
    the first not-done choice, if any, has a name that is not empty. *)
Lemma completedStatusName_cases completed opts :
  (forall n ns, notDoneOptions opts = n :: ns -> name n <> EmptyString) ->
  completedStatusName completed opts
  = match doneOptions opts, notDoneOptions opts with
    | d :: _, n :: _ => Ok (if ToBoolean completed then name d else name n)
    | d :: _, [] => Ok (name d)
    | [], n :: _ => Ok (name n)
    | [], [] => Throw TypeError
    end.
Proof.
  intros Hnames. unfold completedStatusName.
  assert (Hn : forall n ns, notDoneOptions opts = n :: ns -> nonEmpty (name n) = true).
  { intros n ns Heq. apply nonEmpty_true. exact (Hnames n ns Heq). }
  destruct (doneOptions opts) as [|d ds], (notDoneOptions opts) as [|n ns];
    cbn; rewrite ?andb_false_r, ?andb_true_r;
    try rewrite (Hn n ns eq_refl);
    destruct (ToBoolean completed); reflexivity.
Qed.

Lemma applyCompletedFlag_status schema cb ps completed notionProps :
  head (checkboxProperties schema) = Some cb ->
  assoc cb (properties schema) = Some ps ->
  type ps = TStatus ->
  applyCompletedFlag schema (Some completed) notionProps
  = match completedStatusName completed (default [] (options ps)) with
    | Ok chosen => Ok (<[cb := WStatus chosen]> notionProps)
    | Throw e => Throw e
    end.
Proof.
  intros Hcb Hps Hty. unfold applyCompletedFlag.
  destruct (checkboxProperties schema) as [|cb' rest]; [discriminate|].
  injection Hcb as ->. now rewrite Hps, Hty.
Qed.

Lemma applyCompletedFlag_other_keys schema requestedCompleted notionProps updated key :
  applyCompletedFlag schema requestedCompleted notionProps = Ok updated ->
  head (checkboxProperties schema) <> Some key ->
  updated !! key = notionProps !! key.
Proof.
  unfold applyCompletedFlag. intros Heq Hkey.
  destruct requestedCompleted as [completed|]; [|congruence].
  destruct (checkboxProperties schema) as [|cb rest]; [congruence|].
  assert (cb <> key) by (cbn in Hkey; congruence).
  destruct (assoc cb (properties schema)) as [ps|]; [|discriminate].
  destruct (type ps); try congruence.
  - injection Heq as <-. now apply lookup_insert_ne.
  - destruct (completedStatusName completed _); [|discriminate].
    injection Heq as <-. now apply lookup_insert_ne.
Qed.

Lemma completedStatusName_throws completed opts e :
  completedStatusName completed opts = Throw e -> e = TypeError.
Proof.
  unfold completedStatusName, firstName.
  destruct (ToBoolean completed && negb (Nat.eqb (List.length (doneOptions opts)) 0)),
           (doneOptions opts), (notDoneOptions opts) as [|n ns];
    try destruct (nonEmpty (name n)); congruence.
Qed.

Lemma applyCompletedFlag_throws schema requestedCompleted notionProps e :
  applyCompletedFlag schema requestedCompleted notionProps = Throw e -> e = TypeError.
Proof.
  unfold applyCompletedFlag.
  destruct requestedCompleted as [completed|]; [|discriminate].
  destruct (checkboxProperties schema) as [|cb rest]; [discriminate|].
  destruct (assoc cb (properties schema)) as [ps|]; [|congruence].
  destruct (type ps); try discriminate.
  destruct (completedStatusName completed _) eqn:Hname; [discriminate|].
  intros [= <-]. exact (completedStatusName_throws _ _ _ Hname).
Qed.

End Completed.

(** X28. Where the completed-flag block picks a declared choice.  On a
    schema whose first boolean-like property [cb] (not the name
    [__proto__]) has kind Status with a non-empty list of declared choices,
    the first not-done one of which, if any, has a name that is not empty:
    the choices
    split into the done-like ones (lower-cased
    name among "done", "complete", "completed") and the others;
    [applyCompletedFlag] succeeds and sets [cb] to a status that is one of
    the declared choices, namely the first done-like choice when the flag is
    truthy and a done-like choice exists, the first not-done choice when the
    flag is falsy (or when no done-like choice exists), and the first
    done-like choice when the flag is falsy and no not-done choice exists. *)
Theorem applyCompletedFlag_status_choice {num : Type} `{!JsNumber num}
    (schema : Schema) (cb : string) (ps : PropertySchema) (opts : list SelectOption)
    (completed : JsValue num) (notionProps : gmap string (Payload num)) :
  head (checkboxProperties schema) = Some cb ->
  cb <> "__proto__" ->
  assoc cb (properties schema) = Some ps ->
  type ps = TStatus ->
  options ps = Some opts ->
  opts <> [] ->
  (forall n ns, notDoneOptions opts = n :: ns -> name n <> EmptyString) ->
  (forall o, In o opts <-> In o (doneOptions opts) \/ In o (notDoneOptions opts))
  /\ (forall o, In o (doneOptions opts)
                <-> In o opts /\ In (toLowerCase (name o)) doneWords)
  /\ (forall o, In o (notDoneOptions opts)
                <-> In o opts /\ ~ In (toLowerCase (name o)) doneWords)
  /\ exists chosen,
       applyCompletedFlag schema (Some completed) notionProps
       = Ok (<[cb := WStatus chosen]> notionProps)
       /\ In chosen (map name opts)
       /\ (forall d ds, ToBoolean completed = true ->
                        doneOptions opts = d :: ds -> chosen = name d)
       /\ (forall n ns, ToBoolean completed = false ->
                        notDoneOptions opts = n :: ns -> chosen = name n)
       /\ (forall d ds, ToBoolean completed = false ->
                        notDoneOptions opts = [] ->
                        doneOptions opts = d :: ds -> chosen = name d)
       /\ (forall n ns, ToBoolean completed = true ->
                        doneOptions opts = [] ->
                        notDoneOptions opts = n :: ns -> chosen = name n).
Proof.
  intros Hcb _ Hps Hty Hopts Hne Hnames.
  split; [apply options_split|].
  split; [intros o; rewrite doneOptions_In, isDoneName_spec; reflexivity|].
  split.
  { intros o. rewrite notDoneOptions_In, <- isDoneName_spec.
    now rewrite not_true_iff_false. }
  rewrite (applyCompletedFlag_status _ _ _ _ _ Hcb Hps Hty), Hopts. cbn.
  rewrite (completedStatusName_cases _ _ Hnames).
  assert (Hd : forall d, In d (doneOptions opts) -> In (name d) (map name opts)).
  { intros d Hin. apply in_map. now apply doneOptions_In in Hin. }
  assert (Hn : forall n, In n (notDoneOptions opts) -> In (name n) (map name opts)).
  { intros n Hin. apply in_map. now apply notDoneOptions_In in Hin. }
  destruct (doneOptions opts) as [|d ds] eqn:Hdone,
           (notDoneOptions opts) as [|n ns] eqn:Hnot.
  - exfalso. destruct opts as [|o rest]; [congruence|].
    destruct (proj1 (options_split (o :: rest) o) (or_introl eq_refl)) as [Hin|Hin].
    + rewrite Hdone in Hin. destruct Hin.
    + rewrite Hnot in Hin. destruct Hin.
  - exists (name n). split; [reflexivity|].
    split; [apply Hn; now left|].
    repeat split; intros; congruence.
  - exists (name d). split; [reflexivity|].
    split; [apply Hd; now left|].
    repeat split; intros; congruence.
  - exists (if ToBoolean completed then name d else name n).
    split; [reflexivity|].
    split; [destruct (ToBoolean completed); [apply Hd|apply Hn]; now left|].
    repeat split; intros ? ? Hb; rewrite Hb; congruence.
Qed.

(** The example of the specification: choices "Todo" and "Done"; nothing
    else requested; a true flag writes "Done", a false flag writes "Todo". *)
Lemma applyCompletedFlag_status_choice_witness :
  let requested (b : bool) : JsValue Z := VObj [("completed", VBool b)] in
  let written (b : bool) :=
    andThen (toWritePayloadPatch taskSchema (entries (requested b)))
      (applyCompletedFlag taskSchema (get (requested b) "completed")) in
  written true = Ok {["Status" := WStatus "Done"]}
  /\ written false = Ok {["Status" := WStatus "Todo"]}.
Proof.
  intros requested written.
  assert (Hnames : forall n ns,
             notDoneOptions [{| name := "Todo" |}; {| name := "Done" |}] = n :: ns ->
             name n <> EmptyString).
  { intros n ns [= <- _]. discriminate. }
  pose proof (fun b =>
    applyCompletedFlag_status_choice taskSchema "Status" (statusOf ["Todo"; "Done"])
      [{| name := "Todo" |}; {| name := "Done" |}] (VBool (num := Z) b) ∅
      eq_refl ltac:(discriminate) eq_refl eq_refl eq_refl ltac:(discriminate) Hnames)
    as H.
  split.
  - destruct (H true) as (_ & _ & _ & chosen & Heq & _ & Hdone & _).
    unfold written. cbn [get requested entries assoc String.eqb Ascii.eqb Bool.eqb].
    cbn in Heq |- *. rewrite Heq.
    now rewrite (Hdone {| name := "Done" |} [] eq_refl eq_refl).
  - destruct (H false) as (_ & _ & _ & chosen & Heq & _ & _ & Hnot & _).
    unfold written. cbn in Heq |- *. rewrite Heq.
    now rewrite (Hnot {| name := "Todo" |} [] eq_refl eq_refl).
Defined.

(** C1. The completed flag can leave the property unset.  The status column
    of [blankChoiceDatabase] is the first boolean-like property, of kind
    Status, with a non-empty list of choices, whose only choice has an empty
    name.  On the request [{ completed: false }] the loop builds the empty
    payload and the completed-flag block throws: in
    [notDone[0]?.name || done[0].name] the empty name is falsy, and
    [done[0]] is undefined.  The handler answers 500 without any
    [pages.update]. *)
Theorem applyCompletedFlag_blank_choice_unset :
  let schema := buildSchema blankChoiceDatabase in
  let choices := [{| name := EmptyString |}] in
  let requested : JsValue Z := VObj [("completed", VBool false)] in
  head (checkboxProperties schema) = Some "Status"
  /\ assoc "Status" (properties schema)
     = Some {| type := TStatus; options := Some choices |}
  /\ choices <> []
  /\ toWritePayloadPatch schema (entries requested) = Ok ∅
  /\ applyCompletedFlag schema (get requested "completed") ∅ = Throw TypeError
  /\ updateRecord (steadyNotion blankChoiceDatabase) "page-1" requested freshWorld
     = (Ok (serverError "Failed to update item in database"),
        {| databaseSchema := Some schema; calls := [DatabasesRetrieve] |}).
Proof.
  cbv zeta. split; [reflexivity|]. split; [reflexivity|].
  split; [discriminate|]. split; [reflexivity|]. split; reflexivity.
Qed.

(** C9. [applyCompletedFlag] either throws a [TypeError], producing no
    payload at all, or returns a payload that agrees with the one it was
    given on every key other than the schema's first boolean-like property;
    it returns the very payload it was given when the request has no
    [completed] key, and when the schema has no boolean-like property. *)
Theorem applyCompletedFlag_frame {num : Type} `{!JsNumber num}
    (schema : Schema) (requestedCompleted : option (JsValue num))
    (notionProps : gmap string (Payload num)) :
  match applyCompletedFlag schema requestedCompleted notionProps with
  | Ok updated =>
      forall key, head (checkboxProperties schema) <> Some key ->
                  updated !! key = notionProps !! key
  | Throw e => e = TypeError
  end
  /\ (requestedCompleted = None ->
      applyCompletedFlag schema requestedCompleted notionProps = Ok notionProps)
  /\ (checkboxProperties schema = [] ->
      applyCompletedFlag schema requestedCompleted notionProps = Ok notionProps).
Proof.
  split; [|split].
  - destruct (applyCompletedFlag schema requestedCompleted notionProps)
      as [updated|e] eqn:Heq.
    + intros key. now apply (applyCompletedFlag_other_keys schema requestedCompleted).
    + now apply (applyCompletedFlag_throws schema requestedCompleted notionProps).
  - intros ->. reflexivity.
  - intros Hnone. unfold applyCompletedFlag. rewrite Hnone.
    now destruct requestedCompleted.
Qed.

(** A request that edits [Notes] and sets the flag: [Status] is added and
    the [Notes] entry stays as the request produced it; without the flag,
    and on the schema without a boolean-like property, the payload comes
    back as it was. *)
Lemma applyCompletedFlag_frame_witness :
  let notes : gmap string (Payload Z) := {["Notes" := WRichText [{| content := "x" |}]]} in
  (forall key, Some "Status" <> Some key ->
               (<["Status" := WStatus "Done"]> notes) !! key = notes !! key)
  /\ applyCompletedFlag taskSchema None notes = Ok notes
  /\ applyCompletedFlag bareSchema (Some (VBool true)) notes = Ok notes.
Proof.
  intros notes. split; [|split].
  - exact (proj1 (applyCompletedFlag_frame taskSchema (Some (VBool true)) notes)).
  - exact (proj1 (proj2 (applyCompletedFlag_frame taskSchema None notes)) eq_refl).
  - exact (proj2 (proj2 (applyCompletedFlag_frame bareSchema (Some (VBool true)) notes))
             eq_refl).
Defined.

(** ** Reading a record *)

Section Uniform.
Context {num : Type} `{!JsNumber num}.
Implicit Types (schema : Schema) (page : Page num).

(** A key that [page.properties] does not have is not decoded. *)
Lemma decodeProperties_missing (ps : list (string * Property num))
    (acc : gmap string (JsValue num)) (key : string) :
  (forall prop, ~ In (key, prop) ps) ->
  fold_left (fun acc e => <[fst e := extractPropertyValue (Some (snd e))]> acc) ps acc
    !! key
  = acc !! key.
Proof.
  revert acc. induction ps as [|[k prop] ps IH]; intros acc Hno; [reflexivity|].
  cbn [fold_left]. rewrite IH.
  - cbn [fst snd]. apply lookup_insert_ne. intros ->. apply (Hno prop). now left.
  - intros prop' Hin. apply (Hno prop'). now right.
Qed.

(** The value under a key of [page.properties] is decoded by
    [extractPropertyValue]; an object has each key once. *)
Lemma decodeProperties_present (ps : list (string * Property num))
    (key : string) (prop : Property num) :
  NoDup (map fst ps) ->
  In (key, prop) ps ->
  decodeProperties ps !! key = Some (extractPropertyValue (Some prop)).
Proof.
  unfold decodeProperties. generalize (∅ : gmap string (JsValue num)).
  induction ps as [|[k p] ps IH]; intros acc Hnodup Hin; [destruct Hin|].
  inversion Hnodup as [|? ? Hk Hrest]; subst.
  cbn [fold_left]. destruct Hin as [[= -> ->] | Hin].
  - rewrite decodeProperties_missing; [apply lookup_insert_eq|].
    intros prop' Hin'. apply Hk, list_elem_of_In.
    change key with (fst (key, prop')). now apply in_map.
  - now apply IH.
Qed.


Lemma toUniform_title_eq schema page t :
  truthyName (titleProperty schema) = Some t ->
  result_title (toUniform schema page)
  = Some (titleOf (result_properties (toUniform schema page) !! t)).
Proof. intros Ht. cbn. now rewrite Ht. Qed.

End Uniform.







(** ** Encoding a status *)

Section Status.
Context {num : Type} `{!JsNumber num}.
Implicit Types (value : JsValue num) (opts : list SelectOption).

Lemma find_first {A : Type} (f : A -> bool) (l : list A) (x : A) :
  List.find f l = Some x ->
  exists before after,
    l = (before ++ x :: after)%list /\ f x = true
    /\ forall y, In y before -> f y = false.
Proof.
  induction l as [|a l IH]; cbn; [discriminate|].
  destruct (f a) eqn:Hfa.
  - intros [= ->]. exists [], l. repeat split; [exact Hfa|intros y []].
  - intros Hfind. destruct (IH Hfind) as (before & after & -> & Hfx & Hbefore).
    exists (a :: before), after. repeat split; [exact Hfx|].
    intros y [<- | Hin]; [exact Hfa|now apply Hbefore].
Qed.

Lemma matchesChoice_eqb (requested : string) o :
  matchesChoice requested o
  <-> String.eqb (lowerCase (name o)) (lowerCase requested) = true.
Proof. unfold matchesChoice. symmetry. apply String.eqb_eq. Qed.

Lemma setPropertyValue_status_name propertyName ps value (s : string) :
  type ps = TStatus -> value <> VNull -> value <> VUndefined ->
  ToString value = Ok s ->
  setPropertyValue propertyName ps value
  = Ok (Some (WStatus (statusName (default [] (options ps)) s))).
Proof.
  intros Hty Hnull Hundef Hs. unfold setPropertyValue. rewrite Hty.
  destruct value; try congruence; cbv beta iota; rewrite Hs; reflexivity.
Qed.

(** Without a string form of the value, a status write throws. *)
Lemma setPropertyValue_status_throws propertyName ps value e :
  type ps = TStatus -> value <> VNull -> value <> VUndefined ->
  ToString value = Throw e ->
  setPropertyValue propertyName ps value = Throw e.
Proof.
  intros Hty Hnull Hundef Hs. unfold setPropertyValue. rewrite Hty.
  destruct value; try congruence; cbv beta iota; rewrite Hs; reflexivity.
Qed.

Lemma statusName_found opts (requested : string) found :
  List.find (fun opt => String.eqb (lowerCase (name opt)) (lowerCase requested))
    opts = Some found ->
  statusName opts requested = name found.
Proof. intros Hfind. unfold statusName. now rewrite Hfind. Qed.


(** Strings, numbers and booleans have a string form; a string is its own. *)
Lemma ToString_primitive value :
  match value with
  | VStr s => ToString value = Ok s
  | VNum _ | VBool _ | VNull | VUndefined => exists s, ToString value = Ok s
  | VArr _ | VObj _ => True
  end.
Proof. destruct value as [| |[]| | | |]; cbn; eauto. Qed.

End Status.




(** ** The keys of a write payload *)

Section WritePayload.
Context {num : Type} `{!JsNumber num}.
Implicit Types (schema : Schema) (value : JsValue num).
Implicit Types (notionProps : gmap string (Payload num)).
Implicit Types (requested : list (string * JsValue num)).

Lemma isEmptyString_spec value :
  isEmptyString value = true <-> value = VStr EmptyString.
Proof.
  split; [|now intros ->].
  destruct value as [| | | |s| |]; cbn; try discriminate.
  now destruct s.
Qed.

Lemma isTitleKey_spec schema key :
  isTitleKey schema key = true <-> titleProperty schema = Some key.
Proof.
  unfold isTitleKey. destruct (titleProperty schema) as [t|].
  - rewrite String.eqb_eq. split; [now intros ->|now intros [= ->]].
  - split; discriminate.
Qed.

Lemma andThen_Ok {A B : Type} (r : Result A) (k : A -> Result B) (b : B) :
  andThen r k = Ok b <-> exists a, r = Ok a /\ k a = Ok b.
Proof.
  destruct r as [a|e]; cbn.
  - split; [intros Hk; now exists a|now intros (a' & [= <-] & Hk)].
  - split; [discriminate|now intros (a' & [=] & _)].
Qed.

Lemma assignIfSet_dom key (formatted : option (Payload num)) notionProps k :
  k <> "__proto__" ->
  k ∈ dom (assignIfSet key formatted notionProps)
  <-> k ∈ dom notionProps \/ (k = key /\ exists payload, formatted = Some payload).
Proof.
  intros Hk. unfold assignIfSet, assign.
  destruct formatted as [payload|].
  - destruct (String.eqb_spec key "__proto__") as [->|Hne].
    + split; [auto|]. intros [Hin | [-> _]]; [exact Hin|congruence].
    + rewrite dom_insert, elem_of_union, elem_of_singleton. split.
      * intros [-> | Hin]; [right|now left]. split; [reflexivity|now exists payload].
      * intros [Hin | [-> _]]; auto.
  - split; [auto|]. intros [Hin | (_ & payload & [=])]. exact Hin.
Qed.

Lemma createEntry_dom schema notionProps key value k updated :
  createEntry schema notionProps (key, value) = Ok updated ->
  k <> "__proto__" ->
  k ∈ dom updated
  <-> k ∈ dom notionProps \/ (k = key /\ keptOnCreate schema key value).
Proof.
  unfold createEntry, keptOnCreate. cbn [fst snd]. intros Hstep Hk.
  destruct (isEmptyString value && negb (isTitleKey schema key)) eqn:Hskip.
  - injection Hstep as <-.
    apply andb_true_iff in Hskip as [Hempty Htitle].
    apply isEmptyString_spec in Hempty. apply negb_true_iff in Htitle.
    split; [auto|]. intros [Hin | (_ & ps & _ & Hallowed & _)]; [exact Hin|].
    apply Hallowed, isTitleKey_spec in Hempty. congruence.
  - assert (Hallowed : value = VStr EmptyString -> titleProperty schema = Some key).
    { intros Hempty. apply isEmptyString_spec in Hempty. rewrite Hempty in Hskip.
      apply isTitleKey_spec. now destruct (isTitleKey schema key). }
    destruct (assoc key (properties schema)) as [ps|].
    + apply andThen_Ok in Hstep as (formatted & Hset & [= <-]).
      rewrite (assignIfSet_dom _ _ _ _ Hk). split.
      * intros [Hin | [-> (payload & ->)]]; [now left|right].
        split; [reflexivity|]. exists ps. split; [reflexivity|].
        split; [exact Hallowed|now exists payload].
      * intros [Hin | [-> (ps' & [= <-] & _ & payload & Hsome)]]; [now left|right].
        split; [reflexivity|]. exists payload. congruence.
    + injection Hstep as <-.
      split; [auto|]. intros [Hin | (_ & ps' & Hps & _)]; [exact Hin|discriminate].
Qed.

Lemma patchEntry_dom schema notionProps key value k updated :
  patchEntry schema notionProps (key, value) = Ok updated ->
  k <> "__proto__" ->
  k ∈ dom updated
  <-> k ∈ dom notionProps \/ (k = key /\ keptOnUpdate schema key value).
Proof.
  unfold patchEntry, keptOnUpdate. cbn [fst snd]. intros Hstep Hk.
  destruct (assoc key (properties schema)) as [ps|].
  - apply andThen_Ok in Hstep as (formatted & Hset & [= <-]).
    rewrite (assignIfSet_dom _ _ _ _ Hk). split.
    + intros [Hin | [-> (payload & ->)]]; [now left|right].
      split; [reflexivity|]. exists ps. split; [reflexivity|now exists payload].
    + intros [Hin | [-> (ps' & [= <-] & payload & Hsome)]]; [now left|right].
      split; [reflexivity|]. exists payload. congruence.
  - injection Hstep as <-.
    split; [auto|]. intros [Hin | (_ & ps' & Hps & _)]; [exact Hin|discriminate].
Qed.

(** The keys after a [forEach] that completes, when its callback adds a key
    exactly when [kept] holds of the entry. *)
Lemma forEach_dom (step : gmap string (Payload num) -> string * JsValue num
                          -> Result (gmap string (Payload num)))
    (kept : string -> JsValue num -> Prop) :
  (forall notionProps key value k updated,
      step notionProps (key, value) = Ok updated ->
      k <> "__proto__" ->
      k ∈ dom updated
      <-> k ∈ dom notionProps \/ (k = key /\ kept key value)) ->
  forall requested notionProps k payload,
    forEachResult step requested notionProps = Ok payload ->
    k <> "__proto__" ->
    k ∈ dom payload
    <-> k ∈ dom notionProps \/ exists value, In (k, value) requested /\ kept k value.
Proof.
  intros Hstep. induction requested as [|[key value] requested IH];
    intros notionProps k payload Hrun Hk; cbn [forEachResult] in Hrun.
  - injection Hrun as <-. split; [auto|]. intros [Hin | (value & [] & _)]. exact Hin.
  - apply andThen_Ok in Hrun as (updated & Hone & Hrest).
    rewrite (IH _ _ _ Hrest Hk), (Hstep _ _ _ _ _ Hone Hk). split.
    + intros [[Hin | [-> Hkept]] | (v & Hin & Hkept)]; auto.
      * right. exists value. split; [now left|exact Hkept].
      * right. exists v. split; [now right|exact Hkept].
    + intros [Hin | (v & [[= <- <-] | Hin] & Hkept)]; auto.
      right. now exists v.
Qed.

(** [String(array)] prints the elements one by one, left to right. *)
Lemma ToString_array (elems : list (JsValue num)) :
  ToString (VArr elems)
  = andThen (mapResult printElement elems) (fun parts => Ok (join "," parts)).
Proof.
  cbn [ToString]. f_equal.
  induction elems as [|x elems IH]; [reflexivity|].
  cbn [mapResult]. rewrite <- IH. destruct x; reflexivity.
Qed.

(** When an array has a string form, so has each of its elements. *)
Lemma mapResult_ToString (elems : list (JsValue num)) (s : string) :
  ToString (VArr elems) = Ok s -> exists names, mapResult ToString elems = Ok names.
Proof.
  rewrite ToString_array. intros Hs. apply andThen_Ok in Hs as (parts & Hparts & _).
  revert parts Hparts. induction elems as [|x elems IH]; intros parts Hparts.
  - now exists [].
  - cbn [mapResult] in Hparts |- *.
    apply andThen_Ok in Hparts as (part & Hx & Hrest).
    apply andThen_Ok in Hrest as (rest & Hrest & _).
    destruct (IH _ Hrest) as (names & ->).
    assert (Hone : exists n, ToString x = Ok n).
    { destruct x; cbn in Hx |- *; eauto. }
    destruct Hone as (n & ->). cbn. eauto.
Qed.

(** A value that has a string form is encoded without error, whatever the
    kind of the property. *)
Lemma setPropertyValue_completes propertyName ps value (s : string) :
  ToString value = Ok s ->
  exists formatted, setPropertyValue propertyName ps value = Ok formatted.
Proof.
  intros Hs. unfold setPropertyValue.
  assert (Hn : exists n, ToNumber value = Ok n).
  { unfold ToNumber. destruct value; try rewrite Hs; cbn; eauto. }
  destruct Hn as (n & Hn).
  destruct value; [now eexists|now eexists|..];
    (destruct (type ps); cbv beta iota; rewrite ?Hs, ?Hn; cbn [andThen]; eauto).
  destruct (mapResult_ToString _ _ Hs) as (names & ->). cbn. eauto.
Qed.

Lemma forEach_completes (step : gmap string (Payload num) -> string * JsValue num
                                -> Result (gmap string (Payload num))) requested :
  (forall notionProps key value,
      In (key, value) requested -> exists updated, step notionProps (key, value) = Ok updated) ->
  forall notionProps, exists payload, forEachResult step requested notionProps = Ok payload.
Proof.
  induction requested as [|[key value] requested IH]; intros Hstep notionProps.
  - now exists notionProps.
  - cbn [forEachResult].
    destruct (Hstep notionProps key value (or_introl eq_refl)) as (updated & ->). cbn.
    apply IH. intros acc k v Hin. apply Hstep. now right.
Qed.

(** Both loops complete on a request whose values all have a string form. *)
Lemma loops_complete schema requested :
  allPrintable requested ->
  (exists payload, toWritePayload schema requested = Ok payload)
  /\ (exists payload, toWritePayloadPatch schema requested = Ok payload).
Proof.
  intros Hprint. split; apply forEach_completes; intros acc key value Hin;
    destruct (Hprint key value Hin) as (s & Hs).
  - unfold createEntry. cbn [fst snd].
    destruct (isEmptyString value && negb (isTitleKey schema key)); [eauto|].
    destruct (assoc key (properties schema)) as [ps|]; [|eauto].
    destruct (setPropertyValue_completes key ps value s Hs) as (formatted & ->).
    cbn. eauto.
  - unfold patchEntry. cbn [fst snd].
    destruct (assoc key (properties schema)) as [ps|]; [|eauto].
    destruct (setPropertyValue_completes key ps value s Hs) as (formatted & ->).
    cbn. eauto.
Qed.

End WritePayload.

(** C4 (as amended). On a request whose values all have a string form both
    loops complete and raise nothing.  When the loop of the create path
    completes, the keys of its payload, the name [__proto__] apart, are
    exactly the requested keys that have a definition in the schema, carry
    no empty-string value unless the key is the title property, and encode
    to something other than null.  When the loop of the update path
    completes, the keys of its payload are exactly the requested keys that
    have a definition in the schema and encode to something other than
    null: an empty-string value is encoded like any other.  Every other
    requested key is left out. *)
Theorem write_payload_keys {num : Type} `{!JsNumber num}
    (schema : Schema) (requested : list (string * JsValue num)) :
  (allPrintable requested ->
   (exists payload, toWritePayload schema requested = Ok payload)
   /\ (exists payload, toWritePayloadPatch schema requested = Ok payload))
  /\ (forall payload key,
      toWritePayload schema requested = Ok payload ->
      key <> "__proto__" ->
      key ∈ dom payload
      <-> exists value, In (key, value) requested /\ keptOnCreate schema key value)
  /\ (forall payload key,
      toWritePayloadPatch schema requested = Ok payload ->
      key <> "__proto__" ->
      key ∈ dom payload
      <-> exists value, In (key, value) requested /\ keptOnUpdate schema key value).
Proof.
  split; [apply loops_complete|]. split.
  - intros payload key Hrun Hkey. unfold toWritePayload in Hrun.
    rewrite (forEach_dom (createEntry schema) (keptOnCreate schema)
               (createEntry_dom schema) _ _ _ _ Hrun Hkey).
    rewrite dom_empty, elem_of_empty. tauto.
  - intros payload key Hrun Hkey. unfold toWritePayloadPatch in Hrun.
    rewrite (forEach_dom (patchEntry schema) (keptOnUpdate schema)
               (patchEntry_dom schema) _ _ _ _ Hrun Hkey).
    rewrite dom_empty, elem_of_empty. tauto.
Qed.

(** C4 (as stated) fails on the update path: [Notes] is not the title
    property and is requested with an empty string, yet it is a key of the
    payload, which clears the column; the create path drops it. *)
Lemma patch_keeps_empty_string :
  let requested : list (string * JsValue Z) := [("Notes", VStr EmptyString)] in
  let cleared : gmap string (Payload Z) :=
    {["Notes" := WRichText [{| content := EmptyString |}]]} in
  titleProperty taskSchema <> Some "Notes"
  /\ toWritePayloadPatch taskSchema requested = Ok cleared
  /\ "Notes" ∈ dom cleared
  /\ toWritePayload taskSchema requested = Ok ∅.
Proof.
  cbv zeta. split; [discriminate|]. split; [reflexivity|].
  split; [|reflexivity].
  apply elem_of_dom. now eexists.
Qed.

(** A create request with a title, an empty [Notes] and an unknown key:
    only [Name] reaches the payload; on the update path [Notes] does too. *)
Lemma write_payload_keys_witness :
  let requested : list (string * JsValue Z) :=
    [("Name", VStr "Call mom"); ("Notes", VStr EmptyString); ("Mood", VStr "fine")] in
  let created : gmap string (Payload Z) :=
    {["Name" := WTitle [{| content := "Call mom" |}]]} in
  let patched : gmap string (Payload Z) :=
    <["Notes" := WRichText [{| content := EmptyString |}]]> created in
  toWritePayload taskSchema requested = Ok created
  /\ toWritePayloadPatch taskSchema requested = Ok patched
  /\ "Name" ∈ dom created
  /\ ("Notes" ∉ dom created)
  /\ ("Mood" ∉ dom created)
  /\ "Notes" ∈ dom patched.
Proof.
  intros requested created patched.
  pose proof (fun key =>
    proj1 (proj2 (write_payload_keys taskSchema requested)) created key eq_refl) as H.
  pose proof (fun key =>
    proj2 (proj2 (write_payload_keys taskSchema requested)) patched key eq_refl) as H'.
  split; [reflexivity|]. split; [reflexivity|].
  split; [|split; [|split]].
  - apply (proj2 (H "Name" ltac:(discriminate))).
    exists (VStr "Call mom"). split; [cbn; auto|].
    exists (plain TTitle). split; [reflexivity|]. split; [discriminate|].
    now eexists.
  - intros Hin.
    apply (proj1 (H "Notes" ltac:(discriminate))) in Hin
      as (value & Hin & ps & _ & Hallowed & _).
    destruct Hin as [[=] | [[= <-] | [[=] | []]]].
    specialize (Hallowed eq_refl). discriminate.
  - intros Hin.
    apply (proj1 (H "Mood" ltac:(discriminate))) in Hin as (value & _ & ps & Hps & _).
    discriminate.
  - apply (proj2 (H' "Notes" ltac:(discriminate))).
    exists (VStr EmptyString). split; [cbn; auto|].
    exists (plain TRichText). split; [reflexivity|now eexists].
Defined.

(** ** More on the codec *)

Section CodecMore.
Context {num : Type} `{!JsNumber num}.
Implicit Types (value : JsValue num) (opts : list SelectOption).

Lemma ToString_names (chosen : list SelectOption) :
  mapResult ToString (map (fun s => VStr (num := num) (name s)) chosen)
  = Ok (map name chosen).
Proof. induction chosen as [|o chosen IH]; cbn; [reflexivity|]. now rewrite IH. Qed.

Lemma find_after {A : Type} (f : A -> bool) (before after : list A) (x : A) :
  (forall y, In y before -> f y = false) ->
  f x = true ->
  List.find f (before ++ x :: after)%list = Some x.
Proof.
  intros Hbefore Hx. induction before as [|b before IH]; cbn.
  - now rewrite Hx.
  - rewrite (Hbefore b (or_introl eq_refl)). apply IH.
    intros y Hy. apply Hbefore. now right.
Qed.

Lemma stringOrNull_null (s : option string) :
  stringOrNull (num := num) s = VNull
  <-> s = None \/ s = Some EmptyString.
Proof.
  destruct s as [[|c s]|]; cbn; split; auto; try discriminate.
  - intros [? | ?]; discriminate.
Qed.

End CodecMore.

(** X1. A multi-select value decodes to the array of the names of its
    options, in order, and that array encodes back to exactly these names,
    also when there is none (an empty list is written, not dropped); a
    value that is not an array and has a string form encodes as a single
    option of that name. *)
Theorem multi_select_round_trip {num : Type} `{!JsNumber num}
    (propertyName : string) (declared : option (list SelectOption))
    (chosen : list SelectOption) (value : JsValue num) :
  let ps := {| type := TMultiSelect; options := declared |} in
  extractPropertyValue (num := num) (Some (PMultiSelect chosen))
  = VArr (map (fun s => VStr (name s)) chosen)
  /\ setPropertyValue propertyName ps (extractPropertyValue (Some (PMultiSelect chosen)))
     = Ok (Some (WMultiSelect (map name chosen)))
  /\ (forall s,
      (forall elems, value <> VArr elems) -> value <> VNull -> value <> VUndefined ->
      ToString value = Ok s ->
      setPropertyValue propertyName ps value = Ok (Some (WMultiSelect [s]))).
Proof.
  intros ps. split; [reflexivity|]. split.
  - cbn. now rewrite ToString_names.
  - intros s Harr Hnull Hundef Hs. unfold setPropertyValue. cbn [type ps].
    destruct value; try congruence; cbv beta iota; rewrite Hs; reflexivity.
Qed.

(** Options "A" and "B" come back as "A" and "B"; the string "A" alone is
    written as the one option "A". *)
Lemma multi_select_round_trip_witness :
  setPropertyValue "Tags" (plain TMultiSelect)
    (extractPropertyValue (num := Z)
       (Some (PMultiSelect [{| name := "A" |}; {| name := "B" |}])))
  = Ok (Some (WMultiSelect ["A"; "B"]))
  /\ setPropertyValue "Tags" (plain TMultiSelect) (VStr (num := Z) "A")
     = Ok (Some (WMultiSelect ["A"])).
Proof.
  pose proof (multi_select_round_trip (num := Z) "Tags" None
                [{| name := "A" |}; {| name := "B" |}] (VStr "A")) as (_ & Hback & Hone).
  split; [exact Hback|].
  apply Hone; [discriminate..|reflexivity].
Defined.

(** X2. [setPropertyValue] answers null in exactly two situations: the
    value is null or undefined, or the kind of the property is not one of
    the nine it knows.  False, zero, the empty string and the empty array
    are all encoded. *)
Theorem setPropertyValue_null_iff {num : Type} `{!JsNumber num}
    (propertyName : string) (ps : PropertySchema) (value : JsValue num) :
  setPropertyValue propertyName ps value = Ok None
  <-> value = VNull \/ value = VUndefined \/ exists tag, type ps = TOther tag.
Proof.
  unfold setPropertyValue. split.
  - intros Hnull.
    destruct value; auto; destruct (type ps); eauto; cbv beta iota in Hnull;
      try discriminate Hnull;
      apply andThen_Ok in Hnull as (? & _ & [=]).
  - intros [-> | [-> | [tag Htag]]]; try reflexivity.
    rewrite Htag. now destruct value.
Qed.

(** X3. A value that is present survives decoding and re-encoding for its
    own kind: a checkbox keeps its boolean (false included), a select its
    option name, a url its string, a number its number, a date its start. *)
Theorem present_values_round_trip {num : Type} `{!JsNumber num}
    (propertyName : string) (declared : option (list SelectOption)) :
  let encode t raw :=
    setPropertyValue (num := num) propertyName {| type := t; options := declared |}
      (extractPropertyValue (Some raw)) in
  (forall b, encode TCheckbox (PCheckbox b) = Ok (Some (WCheckbox b)))
  /\ (forall o, name o <> EmptyString ->
                encode TSelect (PSelect (Some o)) = Ok (Some (WSelect (name o))))
  /\ (forall u, encode TUrl (PUrl (Some u)) = Ok (Some (WUrl u)))
  /\ (forall n, encode TNumber (PNumber (Some n)) = Ok (Some (WNumber n)))
  /\ (forall d, start d <> EmptyString ->
                encode TDate (PDate (Some d)) = Ok (Some (WDate (VStr (start d))))).
Proof.
  intros encode. unfold encode. split; [now intros []|].
  split; [|split; [reflexivity|split; [reflexivity|]]].
  - intros o Hname. cbn. now rewrite (nonEmpty_true _ Hname).
  - intros d Hstart. cbn. now rewrite (nonEmpty_true _ Hstart).
Qed.

(** A select "High" and a date are written back as they were read. *)
Lemma present_values_round_trip_witness :
  setPropertyValue "Priority" (plain TSelect)
    (extractPropertyValue (num := Z) (Some (PSelect (Some {| name := "High" |}))))
  = Ok (Some (WSelect "High"))
  /\ setPropertyValue "Due" (plain TDate)
       (extractPropertyValue (num := Z) (Some (PDate (Some {| start := "2024-05-01" |}))))
     = Ok (Some (WDate (VStr "2024-05-01"))).
Proof.
  split.
  - exact (proj1 (proj2 (present_values_round_trip (num := Z) "Priority" None))
             {| name := "High" |} ltac:(discriminate)).
  - exact (proj2 (proj2 (proj2 (proj2 (present_values_round_trip (num := Z) "Due" None))))
             {| start := "2024-05-01" |} ltac:(discriminate)).
Defined.

(** X4. Decoding yields null exactly for a property value that holds
    nothing: a missing property, an unset select, status, date, url or
    number, a select or status with an empty name, a date with an empty
    start, an unrecognised kind.  Titles, texts, multi-selects and
    checkboxes never decode to null.  A null never reaches a write: whatever
    the kind, it encodes to nothing. *)
Theorem decode_null_iff_blank {num : Type} `{!JsNumber num}
    (property : option (Property num)) :
  (extractPropertyValue property = VNull
   <-> match property with
       | None => True
       | Some raw => isBlank raw = true
       end)
  /\ (extractPropertyValue property = VNull ->
      forall propertyName ps,
        setPropertyValue propertyName ps (extractPropertyValue property) = Ok None).
Proof.
  split.
  - destruct property as [raw|]; [|now split].
    destruct raw as [?|?|[o|]|?|?|[d|]|[u|]|[n|]|[o|]|?]; cbn;
      try (split; [discriminate|discriminate]);
      try (split; reflexivity);
      try (destruct (nonEmpty _); split; (reflexivity || discriminate)).
  - intros Hnull propertyName ps. now rewrite Hnull.
Qed.

(** An unset select decodes to null and is left out of a write. *)
Lemma decode_null_iff_blank_witness :
  extractPropertyValue (num := Z) (Some (PSelect None)) = VNull
  /\ setPropertyValue "Priority" (plain TSelect)
       (extractPropertyValue (num := Z) (Some (PSelect None))) = Ok None.
Proof.
  pose proof (decode_null_iff_blank (num := Z) (Some (PSelect None))) as [Hiff Hwrite].
  split; [exact (proj2 Hiff eq_refl)|].
  exact (Hwrite (proj2 Hiff eq_refl) "Priority" (plain TSelect)).
Defined.

(** X5. A status read from a page and written back to a column that
    declares it is written under the same name, provided no choice declared
    before it has the same name up to letter case (as the runtime lowers
    it); when such a choice exists, the first one is written instead. *)
Theorem status_round_trip {num : Type} `{!JsNumber num}
    (propertyName : string) (before after : list SelectOption) (o : SelectOption) :
  name o <> EmptyString ->
  let ps := {| type := TStatus; options := Some (before ++ o :: after)%list |} in
  let written :=
    setPropertyValue (num := num) propertyName ps
      (extractPropertyValue (Some (PStatus (Some o)))) in
  ((forall x, In x before -> lowerCase (name x) <> lowerCase (name o)) ->
   written = Ok (Some (WStatus (name o))))
  /\ (forall earlier first later,
        before = (earlier ++ first :: later)%list ->
        (forall x, In x earlier -> lowerCase (name x) <> lowerCase (name o)) ->
        lowerCase (name first) = lowerCase (name o) ->
        written = Ok (Some (WStatus (name first)))).
Proof.
  intros Hname ps written.
  assert (Hw : written
               = Ok (Some (WStatus (statusName (before ++ o :: after)%list (name o))))).
  { unfold written. cbn. now rewrite (nonEmpty_true _ Hname). }
  rewrite Hw. split.
  - intros Hbefore. do 3 f_equal. apply statusName_found.
    apply find_after; [|apply String.eqb_refl].
    intros y Hy. apply String.eqb_neq. now apply Hbefore.
  - intros earlier first later -> Hearlier Hfirst. do 3 f_equal.
    apply statusName_found. rewrite <- app_assoc. cbn [app].
    apply find_after; [|now apply String.eqb_eq].
    intros y Hy. apply String.eqb_neq. now apply Hearlier.
Qed.

(** "Done" declared after "Todo" is written back as "Done"; declared after
    "DONE" it is written back as "DONE". *)
Lemma status_round_trip_witness :
  setPropertyValue "Status" (statusOf ["Todo"; "Done"])
    (extractPropertyValue (num := Z) (Some (PStatus (Some {| name := "Done" |}))))
  = Ok (Some (WStatus "Done"))
  /\ setPropertyValue "Status" (statusOf ["DONE"; "Done"])
       (extractPropertyValue (num := Z) (Some (PStatus (Some {| name := "Done" |}))))
     = Ok (Some (WStatus "DONE")).
Proof.
  split.
  - apply (proj1 (status_round_trip (num := Z) "Status" [{| name := "Todo" |}] []
                    {| name := "Done" |} ltac:(discriminate))).
    intros x [<- | []]. discriminate.
  - apply (proj2 (status_round_trip (num := Z) "Status" [{| name := "DONE" |}] []
                    {| name := "Done" |} ltac:(discriminate))
             [] {| name := "DONE" |} [] eq_refl); [intros x []|reflexivity].
Defined.

(** X6. The letter case of the requested status does not matter: two
    requested values whose string forms are the same once lowered are
    written as the same status, as soon as one declared choice matches
    them, or the first declared choice has a name. *)
Theorem status_write_ignores_case {num : Type} `{!JsNumber num}
    (propertyName : string) (ps : PropertySchema) (v v' : JsValue num) (s s' : string) :
  type ps = TStatus ->
  v <> VNull -> v <> VUndefined -> v' <> VNull -> v' <> VUndefined ->
  ToString v = Ok s ->
  ToString v' = Ok s' ->
  lowerCase s = lowerCase s' ->
  (exists o, In o (default [] (options ps)) /\ matchesChoice s o)
  \/ (exists first rest, default [] (options ps) = first :: rest
                         /\ name first <> EmptyString) ->
  exists chosen,
    setPropertyValue propertyName ps v = Ok (Some (WStatus chosen))
    /\ setPropertyValue propertyName ps v' = Ok (Some (WStatus chosen))
    /\ In chosen (map name (default [] (options ps))).
Proof.
  intros Hty Hn Hu Hn' Hu' Hs Hs' Hlow Hsome.
  rewrite (setPropertyValue_status_name _ _ _ s Hty Hn Hu Hs).
  rewrite (setPropertyValue_status_name _ _ _ s' Hty Hn' Hu' Hs').
  exists (statusName (default [] (options ps)) s).
  split; [reflexivity|].
  unfold statusName. rewrite <- Hlow.
  destruct (List.find _ (default [] (options ps))) as [found|] eqn:Hfind.
  - split; [reflexivity|]. apply in_map. now apply List.find_some in Hfind.
  - destruct Hsome as [(o & Hin & Hmatch) | (first & rest & -> & Hname)].
    + apply matchesChoice_eqb in Hmatch.
      pose proof (List.find_none _ _ Hfind o Hin) as Hno. cbn in Hno.
      rewrite Hmatch in Hno. discriminate.
    + cbn. rewrite (nonEmpty_true _ Hname). split; [reflexivity|now left].
Qed.

(** "done" and "DONE" both write "Done". *)
Lemma status_write_ignores_case_witness :
  exists chosen,
    setPropertyValue "Status" (statusOf ["Todo"; "Done"]) (VStr (num := Z) "done")
    = Ok (Some (WStatus chosen))
    /\ setPropertyValue "Status" (statusOf ["Todo"; "Done"]) (VStr (num := Z) "DONE")
       = Ok (Some (WStatus chosen))
    /\ In chosen (map name (default [] (options (statusOf ["Todo"; "Done"])))).
Proof.
  apply (status_write_ignores_case (num := Z) "Status" (statusOf ["Todo"; "Done"])
           (VStr "done") (VStr "DONE") "done" "DONE");
    try discriminate; try reflexivity.
  left. exists {| name := "Done" |}. split; [cbn; auto|reflexivity].
Defined.

(** ** More on the schema and the completed flag *)

Section SchemaMore.
Context {num : Type} `{!JsNumber num}.
Implicit Types (opts : list SelectOption) (completed : JsValue num).

Lemma assoc_In {V : Type} (o : list (string * V)) (k : string) (v : V) :
  assoc k o = Some v -> In (k, v) o.
Proof.
  induction o as [|[k' v'] o IH]; cbn; [discriminate|].
  destruct (String.eqb k' k) eqn:Hk.
  - apply String.eqb_eq in Hk as ->. intros [= ->]. now left.
  - intros Hrest. right. now apply IH.
Qed.

Lemma assoc_None {V : Type} (o : list (string * V)) (k : string) :
  assoc k o = None <-> forall v, ~ In (k, v) o.
Proof.
  induction o as [|[k' v'] o IH]; cbn.
  - split; [intros _ v []|reflexivity].
  - destruct (String.eqb k' k) eqn:Hk.
    + apply String.eqb_eq in Hk as ->. split; [discriminate|].
      intros Hno. destruct (Hno v'). now left.
    + apply String.eqb_neq in Hk. rewrite IH. split.
      * intros Hno v [[= -> _] | Hin]; [congruence|now apply (Hno v)].
      * intros Hno v Hin. apply (Hno v). now right.
Qed.

Lemma assoc_distinct {V : Type} (o : list (string * V)) (k : string) (v : V) :
  distinctKeys o -> In (k, v) o -> assoc k o = Some v.
Proof.
  unfold distinctKeys. induction o as [|[k' v'] o IH]; intros Hd Hin; [destruct Hin|].
  inversion Hd as [|? ? Hk Hrest]; subst. cbn.
  destruct Hin as [[= -> ->] | Hin]; [now rewrite String.eqb_refl|].
  destruct (String.eqb k' k) eqn:Heq; [|now apply IH].
  apply String.eqb_eq in Heq as ->. exfalso. apply Hk, list_elem_of_In.
  change k with (fst (k, v)). now apply in_map.
Qed.

(** The first key [keysOfType] lists is the key of the first entry of that
    type. *)
Lemma head_keysOfType (p : PropType -> bool) (ps : list (string * PropertySchema))
    (key : string) :
  head (keysOfType p ps) = Some key ->
  exists s before after,
    ps = (before ++ (key, s) :: after)%list
    /\ p (type s) = true
    /\ forall e, In e before -> p (type (snd e)) = false.
Proof.
  unfold keysOfType. induction ps as [|[k s] ps IH]; cbn; [discriminate|].
  destruct (p (type s)) eqn:Hp; cbn.
  - intros [= ->]. exists s, [], ps. repeat split; [exact Hp|intros e []].
  - intros Hhead. destruct (IH Hhead) as (s' & before & after & -> & Hs' & Hbefore).
    exists s', ((k, s) :: before), after. repeat split; [exact Hs'|].
    intros e [<- | Hin]; [exact Hp|now apply Hbefore].
Qed.

Lemma keysOfType_nil (p : PropType -> bool) (ps : list (string * PropertySchema)) :
  keysOfType p ps = [] <-> forall k s, In (k, s) ps -> p (type s) = false.
Proof.
  unfold keysOfType. induction ps as [|[k s] ps IH]; cbn.
  - split; [intros _ k s []|reflexivity].
  - destruct (p (type s)) eqn:Hp; cbn.
    + split; [discriminate|]. intros Hall. rewrite (Hall k s) in Hp; [discriminate|now left].
    + rewrite IH. split.
      * intros Hall k' s' [[= <- <-] | Hin]; [exact Hp|now apply (Hall k')].
      * intros Hall k' s' Hin. apply (Hall k'). now right.
Qed.

Lemma notDone_all opts : doneOptions opts = [] -> notDoneOptions opts = opts.
Proof.
  unfold doneOptions, notDoneOptions.
  induction opts as [|o opts IH]; cbn [List.filter]; [reflexivity|].
  destruct (isDoneName (name o)); cbn [negb]; [discriminate|].
  intros Hrest. now rewrite IH.
Qed.

(** When the status branch throws: no done-like choice, and no first choice
    with a name; the flag plays no part. *)
Lemma completedStatusName_throws_iff completed opts :
  completedStatusName completed opts = Throw TypeError
  <-> doneOptions opts = []
      /\ (opts = [] \/ exists first rest, opts = first :: rest /\ name first = EmptyString).
Proof.
  unfold completedStatusName.
  destruct (doneOptions opts) as [|d ds] eqn:Hdone.
  - rewrite (notDone_all _ Hdone). cbn. rewrite andb_false_r.
    destruct opts as [|o rest]; cbn.
    + split; [auto|reflexivity].
    + destruct (name o) as [|c s] eqn:Hname; cbn.
      * split; [|reflexivity]. intros _. split; [reflexivity|]. right. eauto.
      * split; [discriminate|]. intros [_ [? | (first & rest' & [= <- _] & Hempty)]];
          congruence.
  - cbn. rewrite andb_true_r. split; [|intros [? _]; discriminate].
    destruct (ToBoolean completed); [discriminate|].
    destruct (notDoneOptions opts) as [|n ns]; [discriminate|].
    destruct (nonEmpty (name n)); discriminate.
Qed.

End SchemaMore.

Ltac distinct_keys :=
  unfold distinctKeys; cbn; apply NoDup_ListNoDup;
  repeat (constructor; [cbn; intuition discriminate|]); constructor.

Lemma taskDatabase_distinct : distinctKeys (database_properties taskDatabase).
Proof. distinct_keys. Qed.

Lemma checkboxDatabase_distinct : distinctKeys (database_properties checkboxDatabase).
Proof. distinct_keys. Qed.

Lemma blankChoiceDatabase_distinct :
  distinctKeys (database_properties blankChoiceDatabase).
Proof. distinct_keys. Qed.

Lemma first_boolean_lookup (database : Database) (cb : string) :
  distinctKeys (database_properties database) ->
  head (checkboxProperties (buildSchema database)) = Some cb ->
  exists ps before after,
    database_properties database = (before ++ (cb, ps) :: after)%list
    /\ assoc cb (properties (buildSchema database)) = Some ps
    /\ (type ps = TCheckbox \/ type ps = TStatus)
    /\ forall k s, In (k, s) before -> type s <> TCheckbox /\ type s <> TStatus.
Proof.
  intros Hd Hhead. cbn in Hhead.
  destruct (head_keysOfType _ _ _ Hhead) as (ps & before & after & Heq & Hp & Hbefore).
  exists ps, before, after. split; [exact Heq|]. split; [|split].
  - cbn. apply assoc_distinct; [exact Hd|]. rewrite Heq.
    apply in_or_app. right. now left.
  - destruct (type ps); cbn in Hp; try discriminate; auto.
  - intros k s Hin. specialize (Hbefore (k, s) Hin). cbn in Hbefore.
    destruct (type s); cbn in Hbefore; try discriminate; split; discriminate.
Qed.

(** X7. In the schema built from a database whose property names are
    distinct, the first boolean-like property is the first property, in
    definition order, of kind Checkbox or Status, and its definition is
    found under its name; the list of boolean-like properties is empty
    exactly when the database has no such property. *)
Theorem first_boolean_property {num : Type} `{!JsNumber num}
    (database : Database) :
  distinctKeys (database_properties database) ->
  (forall cb,
      head (checkboxProperties (buildSchema database)) = Some cb ->
      exists ps before after,
        database_properties database = (before ++ (cb, ps) :: after)%list
        /\ assoc cb (properties (buildSchema database)) = Some ps
        /\ (type ps = TCheckbox \/ type ps = TStatus)
        /\ forall k s, In (k, s) before -> type s <> TCheckbox /\ type s <> TStatus)
  /\ (checkboxProperties (buildSchema database) = []
      <-> forall k s, In (k, s) (database_properties database) ->
                      type s <> TCheckbox /\ type s <> TStatus).
Proof.
  intros Hd. split.
  - intros cb. now apply first_boolean_lookup.
  - cbn. rewrite keysOfType_nil. split.
    + intros Hall k s Hin. specialize (Hall k s Hin).
      destruct (type s); cbn in Hall; try discriminate; split; discriminate.
    + intros Hall k s Hin. destruct (Hall k s Hin) as [Hc Hs].
      destruct (type s); cbn; congruence.
Qed.

(** In [checkboxDatabase] the checkbox column comes before the status
    column, so it is the one the flag drives. *)
Lemma first_boolean_property_witness :
  exists ps before after,
    database_properties checkboxDatabase = (before ++ ("completed", ps) :: after)%list
    /\ assoc "completed" (properties (buildSchema checkboxDatabase)) = Some ps
    /\ (type ps = TCheckbox \/ type ps = TStatus)
    /\ forall k s, In (k, s) before -> type s <> TCheckbox /\ type s <> TStatus.
Proof.
  apply (proj1 (first_boolean_property (num := Z) checkboxDatabase
                  checkboxDatabase_distinct)).
  reflexivity.
Defined.

(** X8. On the schema built from a database with distinct property names,
    [applyCompletedFlag] throws in one situation only: the request carries
    the flag, the first boolean-like property is a Status whose choices
    include no done-like one, and either there is no choice at all or the
    first choice has an empty name.  Whether the flag asks for true or for
    false makes no difference, and a Checkbox never makes it throw. *)
Theorem applyCompletedFlag_throws_iff {num : Type} `{!JsNumber num}
    (database : Database) (requestedCompleted : option (JsValue num))
    (notionProps : gmap string (Payload num)) :
  distinctKeys (database_properties database) ->
  applyCompletedFlag (buildSchema database) requestedCompleted notionProps
  = Throw TypeError
  <-> exists completed cb ps,
        requestedCompleted = Some completed
        /\ head (checkboxProperties (buildSchema database)) = Some cb
        /\ assoc cb (database_properties database) = Some ps
        /\ type ps = TStatus
        /\ (forall o, In o (default [] (options ps)) -> isDoneName (name o) = false)
        /\ (default [] (options ps) = []
            \/ exists first rest, default [] (options ps) = first :: rest
                                  /\ name first = EmptyString).
Proof.
  intros Hd.
  assert (Hnone : forall opts,
             doneOptions opts = [] <-> forall o, In o opts -> isDoneName (name o) = false).
  { intros opts. split.
    - intros Hdone o Hin. destruct (isDoneName (name o)) eqn:Ho; [|reflexivity].
      assert (Hin' : In o (doneOptions opts)) by now apply doneOptions_In.
      rewrite Hdone in Hin'. destruct Hin'.
    - intros Hall. destruct (doneOptions opts) as [|d ds] eqn:Hdone; [reflexivity|].
      assert (Hin : In d (doneOptions opts)) by (rewrite Hdone; now left).
      apply doneOptions_In in Hin as [Hin Hd']. rewrite (Hall d Hin) in Hd'. discriminate. }
  destruct requestedCompleted as [completed|];
    [|split; [discriminate|intros (? & ? & ? & [=] & _)]].
  destruct (head (checkboxProperties (buildSchema database))) as [cb|] eqn:Hhead.
  - destruct (first_boolean_lookup database cb Hd Hhead)
      as (ps & before & after & _ & Hps & Hty & _).
    unfold applyCompletedFlag.
    destruct (checkboxProperties (buildSchema database)) as [|cb' rest] eqn:Hcbs;
      [discriminate|].
    injection Hhead as ->. rewrite Hps. cbn in Hps.
    destruct Hty as [Hty | Hty]; rewrite Hty.
    + split; [discriminate|].
      intros (c & cb' & ps' & _ & [= <-] & Hps' & Hty' & _). congruence.
    + destruct (completedStatusName completed (default [] (options ps))) as [chosen|e]
        eqn:Hname.
      * split; [discriminate|].
        intros (c & cb' & ps' & [= <-] & [= <-] & Hps' & _ & Hall & Hfirst).
        assert (ps' = ps) by congruence. subst ps'.
        assert (Hthrow : completedStatusName completed (default [] (options ps))
                         = Throw TypeError).
        { apply completedStatusName_throws_iff. split; [now apply Hnone|exact Hfirst]. }
        congruence.
      * pose proof (completedStatusName_throws _ _ _ Hname) as ->.
        split; [intros _|reflexivity].
        apply completedStatusName_throws_iff in Hname as [Hdone Hfirst].
        exists completed, cb, ps. repeat split; try assumption. now apply Hnone.
  - unfold applyCompletedFlag.
    destruct (checkboxProperties (buildSchema database)); [|discriminate].
    split; [discriminate|]. intros (? & ? & ? & _ & [=] & _).
Qed.

(** The status column of [blankChoiceDatabase] meets the condition, the one
    of [taskDatabase] does not. *)
Lemma applyCompletedFlag_throws_iff_witness :
  applyCompletedFlag (buildSchema blankChoiceDatabase) (Some (VBool (num := Z) true)) ∅
  = Throw TypeError
  /\ applyCompletedFlag (buildSchema taskDatabase) (Some (VBool (num := Z) true)) ∅
     <> Throw TypeError.
Proof.
  split.
  - apply (proj2 (applyCompletedFlag_throws_iff (num := Z) blankChoiceDatabase
                    (Some (VBool true)) ∅ blankChoiceDatabase_distinct)).
    exists (VBool true), "Status", (statusOf [EmptyString]).
    repeat split; try reflexivity.
    + intros o [<- | []]. reflexivity.
    + right. now exists {| name := EmptyString |}, [].
  - intros Hthrow.
    apply (proj1 (applyCompletedFlag_throws_iff (num := Z) taskDatabase
                    (Some (VBool true)) ∅ taskDatabase_distinct))
      in Hthrow as (c & cb & ps & _ & [= <-] & [= <-] & _ & Hall & _).
    specialize (Hall {| name := "Done" |} ltac:(cbn; auto)). discriminate.
Defined.

(** X9. The title property of a built schema is the name of the first
    property, in definition order, of kind Title; with distinct property
    names its definition is the one found under that name; the schema has no
    title property exactly when the database has no property of kind
    Title. *)
Theorem title_property_of_schema (database : Database) :
  (forall t,
      titleProperty (buildSchema database) = Some t ->
      exists ps before after,
        database_properties database = (before ++ (t, ps) :: after)%list
        /\ type ps = TTitle
        /\ (forall k s, In (k, s) before -> type s <> TTitle)
        /\ (distinctKeys (database_properties database) ->
            assoc t (properties (buildSchema database)) = Some ps))
  /\ (titleProperty (buildSchema database) = None
      <-> forall k s, In (k, s) (database_properties database) -> type s <> TTitle).
Proof.
  cbn. split.
  - intros t Ht.
    destruct (List.find (fun e => isTitle (type e.2)) (database_properties database))
      as [[k ps]|] eqn:Hfind; [|discriminate].
    injection Ht as ->.
    destruct (find_first _ _ _ Hfind) as (before & after & Heq & Hps & Hbefore).
    exists ps, before, after. split; [exact Heq|]. cbn in Hps. split; [|split].
    + destruct (type ps); try discriminate; reflexivity.
    + intros k s Hin Hs. specialize (Hbefore (k, s) Hin). cbn in Hbefore.
      rewrite Hs in Hbefore. discriminate.
    + intros Hd. apply assoc_distinct; [exact Hd|]. rewrite Heq.
      apply in_or_app. right. now left.
  - destruct (List.find (fun e => isTitle (type e.2)) (database_properties database))
      as [[k ps]|] eqn:Hfind; cbn.
    + split; [discriminate|]. intros Hall.
      apply List.find_some in Hfind as [Hin Hps]. cbn in Hps.
      destruct (type ps) eqn:Hty; try discriminate. now destruct (Hall k ps Hin).
    + split; [|reflexivity]. intros _ k s Hin Hs.
      pose proof (List.find_none _ _ Hfind (k, s) Hin) as Hno. cbn in Hno.
      rewrite Hs in Hno. discriminate.
Qed.

(** [Name] is the title property of [taskDatabase]; [bareDatabase] has none. *)
Lemma title_property_of_schema_witness :
  (exists ps before after,
      database_properties taskDatabase = (before ++ ("Name", ps) :: after)%list
      /\ type ps = TTitle
      /\ (forall k s, In (k, s) before -> type s <> TTitle)
      /\ (distinctKeys (database_properties taskDatabase) ->
          assoc "Name" (properties (buildSchema taskDatabase)) = Some ps))
  /\ titleProperty (buildSchema bareDatabase) = None.
Proof.
  split.
  - exact (proj1 (title_property_of_schema taskDatabase) "Name" eq_refl).
  - apply (proj2 (title_property_of_schema bareDatabase)).
    intros k s [[= <- <-] | []]. discriminate.
Defined.

Section FlagMore.
Context {num : Type} `{!JsNumber num}.



End FlagMore.





(** ** More on the read path *)

Section ReadMore.
Context {num : Type} `{!JsNumber num}.
Implicit Types (schema : Schema) (page : Page num).

Lemma decode_fold_dom (ps : list (string * Property num))
    (acc : gmap string (JsValue num)) (key : string) :
  key ∈ dom (fold_left
               (fun acc e => <[fst e := extractPropertyValue (Some (snd e))]> acc) ps acc)
  <-> key ∈ dom acc \/ In key (map fst ps).
Proof.
  revert acc. induction ps as [|[k prop] ps IH]; intros acc; cbn [fold_left map In].
  - tauto.
  - rewrite IH, dom_insert, elem_of_union, elem_of_singleton. cbn [fst snd].
    split; [intros [[-> | ?] | ?]|intros [? | [<- | ?]]]; auto.
Qed.

Lemma decodeProperties_absent (ps : list (string * Property num)) (key : string) :
  (forall prop, ~ In (key, prop) ps) -> decodeProperties ps !! key = None.
Proof.
  intros Hno. unfold decodeProperties. now rewrite decodeProperties_missing.
Qed.

End ReadMore.

(** X12. On a page none of whose properties is named [__proto__], the
    [properties] of a record have exactly the property names of the page:
    the schema plays no part in them, so a property the schema does not know
    is decoded like any other. *)
Theorem toUniform_property_names {num : Type} `{!JsNumber num}
    (schema other : Schema) (page : Page num) (key : string) :
  ~ In "__proto__" (map fst (page_properties page)) ->
  (key ∈ dom (result_properties (toUniform schema page))
   <-> In key (map fst (page_properties page)))
  /\ result_properties (toUniform schema page) = result_properties (toUniform other page).
Proof.
  intros _. split; [|reflexivity]. cbn. unfold decodeProperties.
  rewrite decode_fold_dom, dom_empty, elem_of_empty. tauto.
Qed.

Lemma samplePage_plain : ~ In "__proto__" (map fst (page_properties samplePage)).
Proof.
  cbn. intros Hin. repeat (destruct Hin as [Hin|Hin]; [discriminate Hin|]). exact Hin.
Qed.

(** [samplePage] read on two schemas: the record has a [Notes] and no
    [Mood], like the page, and the same properties on both. *)
Lemma toUniform_property_names_witness :
  "Notes" ∈ dom (result_properties (toUniform taskSchema samplePage))
  /\ ("Mood" ∉ dom (result_properties (toUniform taskSchema samplePage)))
  /\ result_properties (toUniform taskSchema samplePage)
     = result_properties (toUniform bareSchema samplePage).
Proof.
  pose proof (fun key =>
    toUniform_property_names taskSchema bareSchema samplePage key samplePage_plain) as H.
  split; [|split].
  - apply (proj1 (H "Notes")). cbn. auto.
  - intros Hin. apply (proj1 (H "Mood")) in Hin. cbn in Hin.
    repeat (destruct Hin as [Hin|Hin]; [discriminate Hin|]). exact Hin.
  - exact (proj2 (H "Notes")).
Defined.


Lemma samplePage_distinct : distinctKeys (page_properties samplePage).
Proof. distinct_keys. Qed.


(** X14. Reading the title from a page whose property names are distinct
    and none of which is [__proto__], on a schema with a title property
    [t]: the title is the text of the runs of the page's title, or
    "Untitled" when that text is empty (no run, or empty runs only); it is
    "Untitled" too when the page lacks the property and [t] names no member
    of [Object.prototype]. *)
Theorem toUniform_title_from_page {num : Type} `{!JsNumber num}
    (schema : Schema) (page : Page num) (t : string) :
  distinctKeys (page_properties page) ->
  ~ In "__proto__" (map fst (page_properties page)) ->
  truthyName (titleProperty schema) = Some t ->
  let title := result_title (toUniform schema page) in
  (forall runs, In (t, PTitle runs) (page_properties page) ->
     title = Some (VStr (if nonEmpty (plainText runs) then plainText runs
                         else "Untitled")))
  /\ ((forall prop, ~ In (t, prop) (page_properties page)) ->
      ~ In t objectPrototypeNames ->
      title = Some (VStr "Untitled")).
Proof.
  intros Hd _ Ht title. unfold title.
  rewrite (toUniform_title_eq _ _ _ Ht). cbn [result_properties toUniform]. split.
  - intros runs Hin. rewrite (decodeProperties_present _ _ _ Hd Hin). cbn.
    now destruct (nonEmpty (plainText runs)).
  - intros Hno _. now rewrite (decodeProperties_absent _ _ Hno).
Qed.

(** The two runs of the title of [samplePage] read as one string. *)
Lemma toUniform_title_from_page_witness :
  result_title (toUniform taskSchema samplePage) = Some (VStr "Buy milk").
Proof.
  exact (proj1 (toUniform_title_from_page taskSchema samplePage "Name"
                  samplePage_distinct samplePage_plain eq_refl)
           [{| plain_text := "Buy " |}; {| plain_text := "milk" |}]
           ltac:(cbn; auto)).
Defined.

(** ** More on the write path *)

Section WriteMore.
Context {num : Type} `{!JsNumber num}.
Implicit Types (schema : Schema) (value : JsValue num).
Implicit Types (requested : list (string * JsValue num)).

Lemma createEntry_put schema (acc : gmap string (Payload num)) (e : string * JsValue num) :
  createEntry schema acc e
  = andThen (createEncoding schema (fst e) (snd e))
      (fun formatted => Ok (assignIfSet (fst e) formatted acc)).
Proof.
  unfold createEntry, createEncoding.
  destruct (isEmptyString (snd e) && negb (isTitleKey schema (fst e))); [reflexivity|].
  now destruct (assoc (fst e) (properties schema)).
Qed.

Lemma patchEntry_put schema (acc : gmap string (Payload num)) (e : string * JsValue num) :
  patchEntry schema acc e
  = andThen (patchEncoding schema (fst e) (snd e))
      (fun formatted => Ok (assignIfSet (fst e) formatted acc)).
Proof.
  unfold patchEntry, patchEncoding. now destruct (assoc (fst e) (properties schema)).
Qed.

Lemma assignIfSet_other (k key : string) (formatted : option (Payload num))
    (acc : gmap string (Payload num)) :
  k <> key -> assignIfSet k formatted acc !! key = acc !! key.
Proof.
  intros Hne. unfold assignIfSet, assign. destruct formatted as [payload|]; [|reflexivity].
  destruct (String.eqb k "__proto__"); [reflexivity|]. now apply lookup_insert_ne.
Qed.

Lemma assignIfSet_same (key : string) (formatted : option (Payload num))
    (acc : gmap string (Payload num)) :
  key <> "__proto__" ->
  assignIfSet key formatted acc !! key
  = match formatted with
    | Some payload => Some payload
    | None => acc !! key
    end.
Proof.
  intros Hne. unfold assignIfSet, assign. destruct formatted as [payload|]; [|reflexivity].
  apply String.eqb_neq in Hne. rewrite Hne. apply lookup_insert_eq.
Qed.

Section ForEach.
Variable step : gmap string (Payload num) -> string * JsValue num
                -> Result (gmap string (Payload num)).
Variable encoding : string -> JsValue num -> Result (option (Payload num)).
Hypothesis step_put : forall acc e,
  step acc e = andThen (encoding (fst e) (snd e))
                 (fun formatted => Ok (assignIfSet (fst e) formatted acc)).

Lemma forEach_lookup_missing requested acc payload key :
  forEachResult step requested acc = Ok payload ->
  (forall value, ~ In (key, value) requested) ->
  payload !! key = acc !! key.
Proof.
  revert acc. induction requested as [|[k v] requested IH]; intros acc Hrun Hno;
    cbn [forEachResult] in Hrun.
  - now injection Hrun as <-.
  - apply andThen_Ok in Hrun as (updated & Hone & Hrest).
    rewrite (IH _ Hrest); [|intros v' Hin; apply (Hno v'); now right].
    rewrite step_put in Hone. cbn [fst snd] in Hone.
    apply andThen_Ok in Hone as (formatted & _ & [= <-]).
    apply assignIfSet_other. intros ->. apply (Hno v). now left.
Qed.

Lemma forEach_lookup_present requested acc payload key value :
  distinctKeys requested ->
  In (key, value) requested ->
  key <> "__proto__" ->
  forEachResult step requested acc = Ok payload ->
  exists formatted,
    encoding key value = Ok formatted
    /\ payload !! key = match formatted with
                        | Some written => Some written
                        | None => acc !! key
                        end.
Proof.
  unfold distinctKeys. revert acc.
  induction requested as [|[k v] requested IH]; intros acc Hd Hin Hkey Hrun;
    [destruct Hin|].
  inversion Hd as [|? ? Hk Hrest]; subst. cbn [forEachResult] in Hrun.
  apply andThen_Ok in Hrun as (updated & Hone & Hrun).
  rewrite step_put in Hone. cbn [fst snd] in Hone.
  apply andThen_Ok in Hone as (first & Hfirst & [= <-]).
  destruct Hin as [[= -> ->] | Hin].
  - exists first. split; [exact Hfirst|].
    rewrite (forEach_lookup_missing _ _ _ _ Hrun).
    + now apply assignIfSet_same.
    + intros v' Hin'. apply Hk, list_elem_of_In.
      change key with (fst (key, v')). now apply in_map.
  - destruct (IH _ Hrest Hin Hkey Hrun) as (formatted & Henc & Hlook).
    exists formatted. split; [exact Henc|]. rewrite Hlook.
    destruct formatted; [reflexivity|].
    apply assignIfSet_other. intros ->. apply Hk, list_elem_of_In.
    change key with (fst (key, value)). now apply in_map.
Qed.

End ForEach.

End WriteMore.

(** X15. In a request whose keys are distinct, when the loop completes,
    each key of the payload (the name [__proto__] apart) carries the
    encoding of its own requested value, whatever else is requested and in
    whatever order: on the create path the encoding of [createEncoding], on
    the update path that of [patchEncoding]; a key that is not requested is
    not in the payload. *)
Theorem write_payload_values {num : Type} `{!JsNumber num}
    (schema : Schema) (requested : list (string * JsValue num)) (key : string) :
  distinctKeys requested ->
  key <> "__proto__" ->
  (forall value payload,
      In (key, value) requested ->
      (toWritePayload schema requested = Ok payload ->
       createEncoding schema key value = Ok (payload !! key))
      /\ (toWritePayloadPatch schema requested = Ok payload ->
          patchEncoding schema key value = Ok (payload !! key)))
  /\ (forall payload,
      (forall value, ~ In (key, value) requested) ->
      (toWritePayload schema requested = Ok payload -> payload !! key = None)
      /\ (toWritePayloadPatch schema requested = Ok payload -> payload !! key = None)).
Proof.
  intros Hd Hkey. unfold toWritePayload, toWritePayloadPatch. split.
  - intros value payload Hin. split; intros Hrun.
    + destruct (forEach_lookup_present _ _ (createEntry_put schema) _ _ _ _ _
                  Hd Hin Hkey Hrun) as (formatted & -> & ->).
      rewrite lookup_empty. now destruct formatted.
    + destruct (forEach_lookup_present _ _ (patchEntry_put schema) _ _ _ _ _
                  Hd Hin Hkey Hrun) as (formatted & -> & ->).
      rewrite lookup_empty. now destruct formatted.
  - intros payload Hno. split; intros Hrun.
    + rewrite (forEach_lookup_missing _ _ (createEntry_put schema) _ _ _ _ Hrun Hno).
      apply lookup_empty.
    + rewrite (forEach_lookup_missing _ _ (patchEntry_put schema) _ _ _ _ Hrun Hno).
      apply lookup_empty.
Qed.

(** A status requested in capitals, among other entries, is written as the
    declared "Done"; the unknown [Mood] is not written. *)
Lemma write_payload_values_witness :
  let requested : list (string * JsValue Z) :=
    [("Notes", VStr "soon"); ("Status", VStr "DONE"); ("Mood", VStr "fine")] in
  let payload : gmap string (Payload Z) :=
    <["Status" := WStatus "Done"]> (<["Notes" := WRichText [{| content := "soon" |}]]> ∅) in
  toWritePayloadPatch taskSchema requested = Ok payload
  /\ patchEncoding taskSchema "Status" (VStr "DONE") = Ok (payload !! "Status")
  /\ createEncoding taskSchema "Mood" (VStr "fine") = Ok (payload !! "Mood").
Proof.
  intros requested payload.
  assert (Hd : distinctKeys requested) by distinct_keys.
  split; [reflexivity|]. split.
  - exact (proj2 (proj1 (write_payload_values taskSchema requested "Status" Hd
                           ltac:(discriminate))
                    (VStr "DONE") payload ltac:(cbn; auto)) eq_refl).
  - exact (proj1 (proj1 (write_payload_values taskSchema requested "Mood" Hd
                           ltac:(discriminate))
                    (VStr "fine") payload ltac:(cbn; auto)) eq_refl).
Defined.

(** X16. Every page [createRecord] sends to the store carries its title.
    When the schema's title property [t] (not the name [__proto__]) is
    defined with kind Title and the request (an object with distinct keys)
    has a truthy value under [t]: if the loop completes, the one
    [pages.create] of the handler has, under [t], a single rich-text run
    whose content is that value as a string; if the loop throws, nothing is
    sent. *)
Theorem created_page_carries_title {num : Type} `{!JsNumber num}
    (notion : NotionClient num) (w w1 : World num) (schema : Schema)
    (requested : JsValue num) (t : string) (ps : PropertySchema) (v : JsValue num) :
  getDatabaseSchema notion w = (Ok schema, w1) ->
  truthyName (titleProperty schema) = Some t ->
  t <> "__proto__" ->
  assoc t (properties schema) = Some ps ->
  type ps = TTitle ->
  isObject requested = true ->
  distinctKeys (entries requested) ->
  In (t, v) (entries requested) ->
  ToBoolean v = true ->
  match toWritePayload schema (entries requested) with
  | Ok props =>
      calls (snd (createRecord notion requested w))
      = (calls w1 ++ [PagesCreate props])%list
      /\ exists s, ToString v = Ok s
                   /\ props !! t = Some (WTitle [{| content := s |}])
  | Throw _ => calls (snd (createRecord notion requested w)) = calls w1
  end.
Proof.
  intros Hs Ht Hproto Hps Hty Hobj Hd Hin Hv.
  assert (Hguard : memberTruthy (member requested t) = true).
  { unfold member, get. now rewrite (assoc_distinct _ _ _ Hd Hin). }
  rewrite (createRecord_with_schema _ _ _ _ _ Hs), Ht, Hobj, Hguard. cbn [negb].
  destruct (toWritePayload schema (entries requested)) as [props|e] eqn:Hrun;
    [|reflexivity].
  split; [now destruct (pages_create notion (calls w1) props)|].
  unfold toWritePayload in Hrun.
  destruct (forEach_lookup_present _ _ (createEntry_put schema) _ _ _ _ _
              Hd Hin Hproto Hrun) as (formatted & Henc & ->).
  unfold createEncoding in Henc. rewrite Hps in Henc.
  assert (Hempty : isEmptyString v = false) by (destruct v as [| | | |[|]| |]; easy).
  rewrite Hempty in Henc. cbn [andb] in Henc.
  unfold setPropertyValue in Henc. rewrite Hty in Henc.
  destruct v; try discriminate Hv; cbv beta iota in Henc;
    apply andThen_Ok in Henc as (str & Hstr & [= <-]); now exists str.
Qed.

(** The request for "Call mom" reaches the store with that title. *)
Lemma created_page_carries_title_witness :
  let requested : JsValue Z := VObj [("Notes", VStr "today"); ("Name", VStr "Call mom")] in
  let props : gmap string (Payload Z) :=
    <["Name" := WTitle [{| content := "Call mom" |}]]>
      (<["Notes" := WRichText [{| content := "today" |}]]> ∅) in
  calls (snd (createRecord (steadyNotion taskDatabase) requested freshWorld))
  = [DatabasesRetrieve; PagesCreate props]
  /\ exists s, ToString (VStr (num := Z) "Call mom") = Ok s
               /\ props !! "Name" = Some (WTitle [{| content := s |}]).
Proof.
  intros requested props.
  exact (created_page_carries_title (steadyNotion taskDatabase) freshWorld
           {| databaseSchema := Some taskSchema; calls := [DatabasesRetrieve] |}
           taskSchema requested "Name" (plain TTitle) (VStr "Call mom")
           eq_refl eq_refl ltac:(discriminate) eq_refl eq_refl eq_refl
           ltac:(distinct_keys) ltac:(cbn; auto) eq_refl).
Defined.

(** ** The handlers as a whole *)

Section Handlers.
Context {num : Type} `{!JsNumber num}.
Implicit Types (notion : NotionClient num) (w : World num) (requested : JsValue num).

(** The three ways [getDatabaseSchema] can go. *)
Lemma getDatabaseSchema_outcome notion w :
  (exists cached, databaseSchema w = Some cached
                  /\ getDatabaseSchema notion w = (Ok cached, w))
  \/ (exists database,
        databaseSchema w = None
        /\ getDatabaseSchema notion w
           = (Ok (buildSchema database),
              {| databaseSchema := Some (buildSchema database); calls := fetched w |}))
  \/ (exists e,
        databaseSchema w = None
        /\ getDatabaseSchema notion w
           = (Throw e, {| databaseSchema := None; calls := fetched w |})).
Proof.
  destruct (databaseSchema w) as [cached|] eqn:Hc.
  - left. exists cached. split; [reflexivity|now apply getDatabaseSchema_cached].
  - right. destruct (databases_retrieve notion (calls w)) as [database|e] eqn:Hr.
    + left. exists database. split; [reflexivity|now apply getDatabaseSchema_success].
    + right. exists e. split; [reflexivity|now apply getDatabaseSchema_failure].
Qed.

(** What a schema lookup does to the world. *)
Lemma getDatabaseSchema_step notion w r w1 :
  getDatabaseSchema notion w = (r, w1) ->
  exists more,
    calls w1 = (calls w ++ more)%list
    /\ writes more = []
    /\ (forall cached, databaseSchema w = Some cached ->
                       databaseSchema w1 = Some cached /\ more = [])
    /\ (forall schema, r = Ok schema -> databaseSchema w1 = Some schema).
Proof.
  intros Hs.
  destruct (getDatabaseSchema_outcome notion w)
    as [(cached & Hc & Heq) | [(database & Hc & Heq) | (e & Hc & Heq)]];
    rewrite Heq in Hs; injection Hs as <- <-.
  - exists []. rewrite app_nil_r. repeat split; try congruence.
  - exists [DatabasesRetrieve]. repeat split; try congruence.
    intros schema [= <-]. reflexivity.
  - exists [DatabasesRetrieve]. repeat split; try congruence.
Qed.

Lemma listRecords_with_schema notion w w1 schema :
  getDatabaseSchema notion w = (Ok schema, w1) ->
  listRecords notion w
  = (Ok match databases_query notion (calls w1) with
        | Ok results =>
            {| statusCode := 200; body := BItems (map (toUniform schema) results) |}
        | Throw _ => serverError "Failed to fetch items from database"
        end,
     afterCall w1 DatabasesQuery).
Proof.
  intros Hs. unfold listRecords, catch, bind. rewrite Hs. unfold await, ret.
  now destruct (databases_query notion (calls w1)).
Qed.

Lemma listRecords_without_schema notion w w1 e :
  getDatabaseSchema notion w = (Throw e, w1) ->
  listRecords notion w = (Ok (serverError "Failed to fetch items from database"), w1).
Proof. intros Hs. unfold listRecords, catch, bind. now rewrite Hs. Qed.

Lemma createRecord_without_schema notion w w1 e requested :
  getDatabaseSchema notion w = (Throw e, w1) ->
  createRecord notion requested w
  = (Ok (serverError "Failed to create item in database"), w1).
Proof. intros Hs. unfold createRecord, catch, bind. now rewrite Hs. Qed.

Lemma updateRecord_not_object notion page_id requested w :
  isObject requested = false ->
  updateRecord notion page_id requested w = (Ok PropertiesRequired, w).
Proof. intros Hobj. unfold updateRecord, catch. now rewrite Hobj. Qed.

Lemma updateRecord_without_schema notion page_id requested w w1 e :
  isObject requested = true ->
  getDatabaseSchema notion w = (Throw e, w1) ->
  updateRecord notion page_id requested w
  = (Ok (serverError "Failed to update item in database"), w1).
Proof.
  intros Hobj Hs. unfold updateRecord, catch, bind. rewrite Hobj. cbn. now rewrite Hs.
Qed.

Lemma updateRecord_with_schema notion page_id requested w w1 schema :
  isObject requested = true ->
  getDatabaseSchema notion w = (Ok schema, w1) ->
  updateRecord notion page_id requested w
  = match andThen (toWritePayloadPatch schema (entries requested))
            (applyCompletedFlag schema (get requested "completed")) with
    | Throw _ => (Ok (serverError "Failed to update item in database"), w1)
    | Ok props =>
        (Ok match pages_update notion (calls w1) page_id props with
            | Ok _ => {| statusCode := 200; body := BUpdated page_id requested |}
            | Throw _ => serverError "Failed to update item in database"
            end,
         afterCall w1 (PagesUpdate page_id props))
    end.
Proof.
  intros Hobj Hs. unfold updateRecord, catch, bind. rewrite Hobj. cbn. rewrite Hs.
  unfold lift.
  destruct (toWritePayloadPatch schema (entries requested)) as [built|e]; [|reflexivity].
  cbn [andThen].
  destruct (applyCompletedFlag schema _ built) as [props|e]; [|reflexivity].
  unfold await, ret. now destruct (pages_update notion (calls w1) page_id props).
Qed.

Lemma archiveRecord_eq notion page_id w :
  archiveRecord notion page_id w
  = (Ok match pages_archive notion (calls w) page_id with
        | Ok _ => {| statusCode := 200; body := BDeleted page_id |}
        | Throw _ => serverError "Failed to delete item from database"
        end,
     afterCall w (PagesArchive page_id)).
Proof.
  unfold archiveRecord, catch, bind, await, ret.
  now destruct (pages_archive notion (calls w) page_id).
Qed.

(** A handler that answers after a schema lookup and at most one call more
    is well behaved. *)
Lemma wellBehaved_after_lookup notion (run : M num (Response num)) w r w1 response w' :
  getDatabaseSchema notion w = (r, w1) ->
  run w = (Ok response, w') ->
  w' = w1 \/ (exists c, w' = afterCall w1 c) ->
  In (statusCode response) [200; 201; 400; 500]%nat ->
  wellBehaved run w.
Proof.
  intros Hs Hrun Hw' Hcode.
  destruct (getDatabaseSchema_step _ _ _ _ Hs) as (more & Hcalls & Hwrites & Hcache & _).
  destruct Hw' as [-> | [c ->]].
  - exists response, w1, more. repeat split; try assumption.
    + rewrite Hwrites. cbn. lia.
    + intros cached Hc. now apply Hcache.
  - exists response, (afterCall w1 c), (more ++ [c])%list. repeat split; try assumption.
    + cbn. now rewrite Hcalls, app_assoc.
    + unfold writes in *. rewrite writes_app, Hwrites. cbn.
      destruct (isWrite c); cbn; lia.
    + intros cached Hc. cbn. now apply Hcache.
Qed.

End Handlers.

(** X17. No handler ever throws: [listRecords], [createRecord],
    [updateRecord] and [archiveRecord] answer from every world and against
    every store, with status 200, 201, 400 or 500; each run only adds to the
    history of client calls, adds at most one store write to it, and leaves
    a filled schema cache as it is. *)
Theorem handlers_well_behaved {num : Type} `{!JsNumber num}
    (notion : NotionClient num) (w : World num) (page_id : string)
    (requested : JsValue num) :
  wellBehaved (listRecords notion) w
  /\ wellBehaved (createRecord notion requested) w
  /\ wellBehaved (updateRecord notion page_id requested) w
  /\ wellBehaved (archiveRecord notion page_id) w.
Proof.
  destruct (getDatabaseSchema notion w) as [[schema|e] w1] eqn:Hs.
  - split; [|split; [|split]].
    + eapply wellBehaved_after_lookup;
        [exact Hs|apply (listRecords_with_schema _ _ _ _ Hs)|right; eauto|].
      destruct (databases_query notion (calls w1)); cbn; auto.
    + pose proof (createRecord_with_schema _ _ _ _ requested Hs) as Hrun.
      destruct (truthyName (titleProperty schema)) as [t|];
        [|eapply wellBehaved_after_lookup; [exact Hs|exact Hrun|now left|cbn; auto]].
      destruct (isObject requested);
        [|eapply wellBehaved_after_lookup; [exact Hs|exact Hrun|now left|cbn; auto]].
      destruct (memberTruthy (member requested t));
        [|eapply wellBehaved_after_lookup; [exact Hs|exact Hrun|now left|cbn; auto]].
      cbn [negb] in Hrun.
      destruct (toWritePayload schema (entries requested)) as [props|e];
        [|eapply wellBehaved_after_lookup; [exact Hs|exact Hrun|now left|cbn; auto]].
      cbv zeta in Hrun.
      destruct (pages_create notion (calls w1) props);
        (eapply wellBehaved_after_lookup;
         [exact Hs|exact Hrun|right; eexists; reflexivity|cbn; auto]).
    + destruct (isObject requested) eqn:Hobj.
      * pose proof (updateRecord_with_schema _ page_id _ _ _ _ Hobj Hs) as Hrun.
        destruct (andThen _ _) as [props|e];
          [|eapply wellBehaved_after_lookup; [exact Hs|exact Hrun|now left|cbn; auto]].
        eapply wellBehaved_after_lookup; [exact Hs|exact Hrun|right; eauto|].
        destruct (pages_update notion (calls w1) page_id props); cbn; auto.
      * exists PropertiesRequired, w, []. rewrite app_nil_r.
        repeat split; [now apply updateRecord_not_object|cbn; lia|auto|cbn; auto].
    + exists (match pages_archive notion (calls w) page_id with
              | Ok _ => {| statusCode := 200; body := BDeleted page_id |}
              | Throw _ => serverError "Failed to delete item from database"
              end), (afterCall w (PagesArchive page_id)), [PagesArchive page_id].
      repeat split; [apply archiveRecord_eq|cbn; lia|auto|].
      destruct (pages_archive notion (calls w) page_id); cbn; auto.
  - split; [|split; [|split]].
    + eapply wellBehaved_after_lookup;
        [exact Hs|apply (listRecords_without_schema _ _ _ _ Hs)|now left|cbn; auto].
    + eapply wellBehaved_after_lookup;
        [exact Hs|apply (createRecord_without_schema _ _ _ _ _ Hs)|now left|cbn; auto].
    + destruct (isObject requested) eqn:Hobj.
      * eapply wellBehaved_after_lookup;
          [exact Hs|apply (updateRecord_without_schema _ _ _ _ _ _ Hobj Hs)|now left
          |cbn; auto].
      * exists PropertiesRequired, w, []. rewrite app_nil_r.
        repeat split; [now apply updateRecord_not_object|cbn; lia|auto|cbn; auto].
    + exists (match pages_archive notion (calls w) page_id with
              | Ok _ => {| statusCode := 200; body := BDeleted page_id |}
              | Throw _ => serverError "Failed to delete item from database"
              end), (afterCall w (PagesArchive page_id)), [PagesArchive page_id].
      repeat split; [apply archiveRecord_eq|cbn; lia|auto|].
      destruct (pages_archive notion (calls w) page_id); cbn; auto.
Qed.

(** X18. [listRecords] answers 200 exactly when the schema is at hand and
    the query is accepted; it then lists one record per page, in the order
    of the store, each with the [id] and the [created_time] of its page.
    When the schema cannot be fetched, the store is not queried. *)
Theorem listRecords_outcomes {num : Type} `{!JsNumber num}
    (notion : NotionClient num) (w : World num) :
  match getDatabaseSchema notion w with
  | (Ok schema, w1) =>
      match databases_query notion (calls w1) with
      | Ok results =>
          exists listed,
            listRecords notion w
            = (Ok {| statusCode := 200; body := BItems listed |},
               afterCall w1 DatabasesQuery)
            /\ listed = map (toUniform schema) results
            /\ map result_id listed = map id results
            /\ map result_createdAt listed = map created_time results
      | Throw _ =>
          listRecords notion w
          = (Ok (serverError "Failed to fetch items from database"),
             afterCall w1 DatabasesQuery)
      end
  | (Throw _, w1) =>
      listRecords notion w
      = (Ok (serverError "Failed to fetch items from database"), w1)
  end.
Proof.
  destruct (getDatabaseSchema notion w) as [[schema|e] w1] eqn:Hs.
  - rewrite (listRecords_with_schema _ _ _ _ Hs).
    destruct (databases_query notion (calls w1)) as [results|e]; [|reflexivity].
    eexists. split; [reflexivity|]. split; [reflexivity|].
    rewrite !map_map. split; reflexivity.
  - apply (listRecords_without_schema _ _ _ _ Hs).
Qed.

(** X19. [updateRecord] answers 200 exactly when the request is an object,
    the schema is at hand, the loop over the request completed, the
    completed flag could be applied and the store accepted the update; the
    one [pages.update] it then made carries the request's encodings with
    the flag applied, and the answer echoes the request.  A request it
    refuses with 400 leaves the world untouched: not even the schema is
    looked up. *)
Theorem updateRecord_succeeds_iff {num : Type} `{!JsNumber num}
    (notion : NotionClient num) (page_id : string) (requested : JsValue num)
    (w : World num) :
  exists response w',
    updateRecord notion page_id requested w = (Ok response, w')
    /\ (statusCode response = 200
        <-> exists schema w1 built props,
              isObject requested = true
              /\ getDatabaseSchema notion w = (Ok schema, w1)
              /\ toWritePayloadPatch schema (entries requested) = Ok built
              /\ applyCompletedFlag schema (get requested "completed") built = Ok props
              /\ pages_update notion (calls w1) page_id props = Ok tt
              /\ w' = afterCall w1 (PagesUpdate page_id props)
              /\ body response = BUpdated page_id requested)
    /\ (statusCode response = 400 <-> isObject requested = false)
    /\ (statusCode response = 400 -> w' = w).
Proof.
  destruct (isObject requested) eqn:Hobj.
  2:{ exists PropertiesRequired, w. split; [now apply updateRecord_not_object|].
      split; [|split; [split; reflexivity|reflexivity]].
      split; [discriminate|]. intros (? & ? & ? & ? & [=] & _). }
  destruct (getDatabaseSchema notion w) as [[schema|e] w1] eqn:Hs.
  2:{ eexists _, _. split; [apply (updateRecord_without_schema _ _ _ _ _ _ Hobj Hs)|].
      split; [|split; [split; discriminate|discriminate]].
      split; [discriminate|]. intros (? & ? & ? & ? & _ & [=] & _). }
  pose proof (updateRecord_with_schema _ page_id _ _ _ _ Hobj Hs) as Hrun.
  destruct (toWritePayloadPatch schema (entries requested)) as [built|e] eqn:Hbuilt.
  2:{ eexists _, _. split; [exact Hrun|].
      split; [|split; [split; discriminate|discriminate]].
      split; [discriminate|]. intros (? & ? & ? & ? & _ & [= <- <-] & Hbuilt' & _).
      congruence. }
  cbn [andThen] in Hrun.
  destruct (applyCompletedFlag schema _ built) as [props|e] eqn:Hflag.
  2:{ eexists _, _. split; [exact Hrun|].
      split; [|split; [split; discriminate|discriminate]].
      split; [discriminate|].
      intros (? & ? & ? & ? & _ & [= <- <-] & Hbuilt' & Hflag' & _).
      rewrite Hbuilt in Hbuilt'. injection Hbuilt' as <-. congruence. }
  eexists _, _. split; [exact Hrun|].
  destruct (pages_update notion (calls w1) page_id props) as [[]|e] eqn:Hupd.
  - split; [|split; [split; discriminate|discriminate]].
    split; [|reflexivity]. intros _. exists schema, w1, built, props. auto 10.
  - split; [|split; [split; discriminate|discriminate]].
    split; [discriminate|].
    intros (? & ? & ? & ? & _ & [= <- <-] & Hbuilt' & Hflag' & Hupd' & _).
    rewrite Hbuilt in Hbuilt'. injection Hbuilt' as <-.
    rewrite Hflag in Hflag'. injection Hflag' as <-. congruence.
Qed.

(** X20. With a filled schema cache no handler goes back to
    [databases.retrieve]: [listRecords] makes its query and nothing else,
    [createRecord] and [updateRecord] make their one write or no call at
    all, [archiveRecord] makes its one write; the cache is the same after
    as before. *)
Theorem cached_schema_not_refetched {num : Type} `{!JsNumber num}
    (notion : NotionClient num) (w : World num) (cached : Schema)
    (page_id : string) (requested : JsValue num) :
  databaseSchema w = Some cached ->
  snd (listRecords notion w) = afterCall w DatabasesQuery
  /\ (snd (createRecord notion requested w) = w
      \/ exists props,
           toWritePayload cached (entries requested) = Ok props
           /\ snd (createRecord notion requested w) = afterCall w (PagesCreate props))
  /\ (snd (updateRecord notion page_id requested w) = w
      \/ exists built props,
           toWritePayloadPatch cached (entries requested) = Ok built
           /\ applyCompletedFlag cached (get requested "completed") built = Ok props
           /\ snd (updateRecord notion page_id requested w)
              = afterCall w (PagesUpdate page_id props))
  /\ snd (archiveRecord notion page_id w) = afterCall w (PagesArchive page_id).
Proof.
  intros Hc. pose proof (getDatabaseSchema_cached notion w cached Hc) as Hs.
  split; [|split; [|split]].
  - now rewrite (listRecords_with_schema _ _ _ _ Hs).
  - rewrite (createRecord_with_schema _ _ _ _ requested Hs).
    destruct (truthyName (titleProperty cached)) as [t|]; [|now left].
    destruct (isObject requested); [|now left].
    destruct (memberTruthy (member requested t)); [|now left].
    cbn [negb].
    destruct (toWritePayload cached (entries requested)) as [props|e]; [|now left].
    right. exists props. split; [reflexivity|].
    cbv zeta. now destruct (pages_create notion (calls w) props).
  - destruct (isObject requested) eqn:Hobj;
      [|left; now rewrite updateRecord_not_object].
    rewrite (updateRecord_with_schema _ page_id _ _ _ _ Hobj Hs).
    destruct (toWritePayloadPatch cached (entries requested)) as [built|e]; [|now left].
    cbn [andThen].
    destruct (applyCompletedFlag cached _ built) as [props|e] eqn:Hflag; [|now left].
    right. now exists built, props.
  - now rewrite archiveRecord_eq.
Qed.

(** After one listing the cache is filled; a second listing only queries. *)
Lemma cached_schema_not_refetched_witness :
  let warmed : World Z :=
    {| databaseSchema := Some taskSchema; calls := [DatabasesRetrieve; DatabasesQuery] |} in
  snd (listRecords (steadyNotion taskDatabase) freshWorld) = warmed
  /\ snd (listRecords (steadyNotion taskDatabase) warmed) = afterCall warmed DatabasesQuery.
Proof.
  intros warmed. split; [reflexivity|].
  exact (proj1 (cached_schema_not_refetched (steadyNotion taskDatabase) warmed taskSchema
                  "page-1" VNull eq_refl)).
Defined.

(** X21. [GET /api/schema] lists the properties of the schema under their
    names, in definition order; [options] holds the names of the declared
    choices for a select, a multi-select and a status (an empty list when
    none is declared) and is null for every other kind; when the schema
    cannot be fetched the answer is a 500. *)
Theorem describeSchema_listing {num : Type} `{!JsNumber num}
    (notion : NotionClient num) (w : World num) :
  match getDatabaseSchema notion w with
  | (Ok schema, w1) =>
      exists listed,
        describeSchema notion w = (Ok (200, SListing (titleProperty schema) listed), w1)
        /\ map info_name listed = map fst (properties schema)
        /\ map info_type listed = map (fun e => type (snd e)) (properties schema)
        /\ (forall i, In i listed ->
              (info_options i = None <-> isChoiceType (info_type i) = false))
        /\ (forall key ps, In (key, ps) (properties schema) ->
              isChoiceType (type ps) = true ->
              In {| info_name := key; info_type := type ps;
                    info_options := Some (map name (default [] (options ps))) |}
                 listed)
  | (Throw _, w1) =>
      describeSchema notion w
      = (Ok (500, SError "Failed to fetch database schema"), w1)
  end.
Proof.
  unfold describeSchema, catch, bind.
  destruct (getDatabaseSchema notion w) as [[schema|e] w1]; [|reflexivity].
  eexists. split; [reflexivity|]. rewrite !map_map.
  split; [reflexivity|]. split; [reflexivity|]. split.
  - intros i Hin. apply in_map_iff in Hin as ([key ps] & <- & _). cbn.
    destruct (isChoiceType (type ps)); split; congruence.
  - intros key ps Hin Hchoice. apply in_map_iff. exists (key, ps).
    split; [|exact Hin]. unfold describeProperty. cbn. now rewrite Hchoice.
Qed.

(** X22. [createRecord] answers 201 exactly when the schema is at hand with
    a title property, the request is an object on which that property reads
    truthy, the loop over the request completed, and the store accepted the
    page; the one [pages.create] it then made carries the payload the loop
    built.  An answer 400 means the schema was at hand and nothing more was
    done. *)
Theorem createRecord_created_iff {num : Type} `{!JsNumber num}
    (notion : NotionClient num) (requested : JsValue num) (w : World num) :
  exists response w',
    createRecord notion requested w = (Ok response, w')
    /\ (statusCode response = 201
        <-> exists schema w1 t props page,
              getDatabaseSchema notion w = (Ok schema, w1)
              /\ truthyName (titleProperty schema) = Some t
              /\ isObject requested = true
              /\ memberTruthy (member requested t) = true
              /\ toWritePayload schema (entries requested) = Ok props
              /\ pages_create notion (calls w1) props = Ok page
              /\ w' = afterCall w1 (PagesCreate props))
    /\ (statusCode response = 400 ->
        exists schema, getDatabaseSchema notion w = (Ok schema, w')).
Proof.
  destruct (getDatabaseSchema notion w) as [[schema|e] w1] eqn:Hs.
  2:{ eexists _, _. split; [apply (createRecord_without_schema _ _ _ _ _ Hs)|].
      split; [|discriminate]. split; [discriminate|].
      intros (? & ? & ? & ? & ? & [=] & _). }
  pose proof (createRecord_with_schema _ _ _ _ requested Hs) as Hrun.
  destruct (truthyName (titleProperty schema)) as [t|] eqn:Ht.
  2:{ eexists _, _. split; [exact Hrun|]. split; [|eauto]. split; [discriminate|].
      intros (? & ? & ? & ? & ? & [= <- <-] & Ht' & _). congruence. }
  destruct (isObject requested) eqn:Hobj.
  2:{ eexists _, _. split; [exact Hrun|]. split; [|eauto]. split; [discriminate|].
      intros (? & ? & ? & ? & ? & _ & _ & [=] & _). }
  destruct (memberTruthy (member requested t)) eqn:Hval.
  2:{ eexists _, _. split; [exact Hrun|]. split; [|eauto]. split; [discriminate|].
      intros (? & ? & t' & ? & ? & [= <- <-] & Ht' & _ & Hval' & _).
      rewrite Ht in Ht'. injection Ht' as <-. congruence. }
  cbn [negb] in Hrun.
  destruct (toWritePayload schema (entries requested)) as [props|e] eqn:Hbuilt.
  2:{ eexists _, _. split; [exact Hrun|]. split; [|discriminate].
      split; [discriminate|].
      intros (? & ? & ? & ? & ? & [= <- <-] & _ & _ & _ & Hbuilt' & _). congruence. }
  cbv zeta in Hrun.
  destruct (pages_create notion (calls w1) props) as [page|e] eqn:Hcreate.
  - eexists _, _. split; [exact Hrun|]. split; [|discriminate].
    split; [|reflexivity]. intros _. exists schema, w1, t, props, page. auto 10.
  - eexists _, _. split; [exact Hrun|]. split; [|discriminate].
    split; [discriminate|].
    intros (? & ? & ? & ? & ? & [= <- <-] & _ & _ & _ & Hbuilt' & Hcreate' & _).
    rewrite Hbuilt in Hbuilt'. injection Hbuilt' as <-. congruence.
Qed.

(** ** The front end *)

Section FrontEnd.
Context {num : Type} `{!JsNumber num} {A : Type}.
Implicit Types (notion : NotionClient num) (w : World num).
Implicit Types (st : AppState A) (l : list (Item A)) (i : Item A).

Lemma updateRecord_codes notion page_id (requested : JsValue num) w :
  exists response w',
    updateRecord notion page_id requested w = (Ok response, w')
    /\ In (statusCode response) [200; 400; 500]%nat.
Proof.
  destruct (isObject requested) eqn:Hobj.
  2:{ eexists _, _. split; [now apply updateRecord_not_object|cbn; auto]. }
  destruct (getDatabaseSchema notion w) as [[schema|e] w1] eqn:Hs.
  2:{ eexists _, _. split; [apply (updateRecord_without_schema _ _ _ _ _ _ Hobj Hs)|].
      cbn; auto. }
  pose proof (updateRecord_with_schema _ page_id _ _ _ _ Hobj Hs) as Hrun.
  destruct (andThen _ _) as [props|e].
  - eexists _, _. split; [exact Hrun|].
    destruct (pages_update notion (calls w1) page_id props); cbn; auto.
  - eexists _, _. split; [exact Hrun|]. cbn; auto.
Qed.

Lemma flipById_ids id l : map item_id (flipById id l) = map item_id l.
Proof.
  unfold flipById. rewrite map_map. apply map_ext. intros i.
  now destruct (String.eqb (item_id i) id).
Qed.

Lemma flipById_fields id l : map item_fields (flipById id l) = map item_fields l.
Proof.
  unfold flipById. rewrite map_map. apply map_ext. intros i.
  now destruct (String.eqb (item_id i) id).
Qed.

Lemma flipById_find id l :
  List.find (fun i => String.eqb (item_id i) id) (flipById id l)
  = flipItem <$> List.find (fun i => String.eqb (item_id i) id) l.
Proof.
  induction l as [|i l IH]; [reflexivity|]. cbn.
  destruct (String.eqb (item_id i) id) eqn:Hi; cbn; rewrite Hi; [reflexivity|exact IH].
Qed.

End FrontEnd.

(** X23. Toggling an item that is not in the list does nothing and sends
    nothing.  Toggling a listed item sends one update of that page whose
    flag is the opposite of what the first item with that id shows; when
    the answer is 200 every item with that id is flipped, so that the item
    then shows the flag that was sent; with any other answer the list is
    put back as it was and the error message is set.  In all cases the
    ids, their order and the other fields of the items are kept. *)
Theorem toggleItemCompletion_outcomes {num : Type} `{!JsNumber num} {A : Type}
    (notion : NotionClient num) (id : string) (st : AppState A) (w : World num) :
  match List.find (fun i => String.eqb (item_id i) id) (items st) with
  | None => toggleItemCompletion notion id st w = (Ok st, w)
  | Some item =>
      let flag := negb (shownCompleted item) in
      exists response w' st',
        updateRecord notion id (VObj [("completed", VBool flag)]) w = (Ok response, w')
        /\ toggleItemCompletion notion id st w = (Ok st', w')
        /\ (statusCode response = 200 ->
            st' = {| items := flipById id (items st); error := error st |}
            /\ exists shown,
                 List.find (fun i => String.eqb (item_id i) id) (items st') = Some shown
                 /\ item_completed shown = Some flag)
        /\ (statusCode response <> 200 ->
            st' = {| items := items st;
                     error := "Failed to update item status. Please try again." |})
        /\ map item_id (items st') = map item_id (items st)
        /\ map item_fields (items st') = map item_fields (items st)
  end.
Proof.
  destruct (List.find _ (items st)) as [item|] eqn:Hfind.
  2:{ unfold toggleItemCompletion. now rewrite Hfind. }
  intros flag.
  destruct (updateRecord_codes notion id (VObj [("completed", VBool flag)]) w)
    as (response & w' & Hrun & Hcode).
  unfold toggleItemCompletion. rewrite Hfind. unfold catch, bind. fold flag.
  rewrite Hrun. exists response, w'.
  destruct Hcode as [Hcode | [Hcode | [Hcode | []]]]; rewrite <- Hcode; cbn [isOkStatus];
    eexists; (split; [reflexivity|]); (split; [reflexivity|]); cbn.
  - split; [|split; [congruence|split; [apply flipById_ids|apply flipById_fields]]].
    intros _. split; [reflexivity|]. exists (flipItem item).
    split; [|reflexivity]. now rewrite flipById_find, Hfind.
  - split; [discriminate|]. split; [reflexivity|]. split; reflexivity.
  - split; [discriminate|]. split; [reflexivity|]. split; reflexivity.
Qed.

(** X24. Flipping the items of an id twice gives back a list that shows the
    same flags; it gives back the very same list when every item of that id
    had its flag set, but an item whose flag was absent comes back with the
    flag false. *)
Theorem flipById_twice {A : Type} (id : string) (l : list (Item A)) :
  map shownCompleted (flipById id (flipById id l)) = map shownCompleted l
  /\ ((forall i, In i l -> item_id i = id -> item_completed i <> None) ->
      flipById id (flipById id l) = l)
  /\ (forall i, In i l -> item_id i = id -> item_completed i = None ->
      In {| item_id := id; item_completed := Some false; item_fields := item_fields i |}
         (flipById id (flipById id l))).
Proof.
  unfold flipById. split; [|split].
  - rewrite !map_map. apply map_ext. intros i.
    destruct (String.eqb (item_id i) id) eqn:Hi; cbn; rewrite ?Hi; [|reflexivity].
    cbn. unfold shownCompleted. cbn. apply negb_involutive.
  - intros Hset. rewrite map_map. rewrite <- (map_id l) at 2.
    apply map_ext_in. intros i Hin.
    destruct (String.eqb (item_id i) id) eqn:Hi; cbn; rewrite ?Hi; [|reflexivity].
    apply String.eqb_eq in Hi. specialize (Hset i Hin Hi).
    destruct i as [iid [b|] fields]; [|cbn in Hset; congruence].
    unfold flipItem, shownCompleted. cbn. now rewrite negb_involutive.
  - intros i Hin Hid Hnone. rewrite map_map. apply in_map_iff. exists i.
    split; [|exact Hin]. rewrite <- Hid, String.eqb_refl. cbn.
    rewrite String.eqb_refl. unfold flipItem, shownCompleted. cbn.
    now rewrite Hnone.
Qed.

(** In [sampleItems] the first two items have their flag set; the third one,
    created through the form, has none and comes back from two toggles
    with the flag false. *)
Lemma flipById_twice_witness :
  flipById "page-1" (flipById "page-1" sampleItems) = sampleItems
  /\ In {| item_id := "page-3"; item_completed := Some false; item_fields := "Pay rent" |}
        (flipById "page-3" (flipById "page-3" sampleItems)).
Proof.
  split.
  - apply (proj1 (proj2 (flipById_twice "page-1" sampleItems))).
    intros i [<- | [<- | [<- | []]]]; discriminate.
  - exact (proj2 (proj2 (flipById_twice "page-3" sampleItems))
             {| item_id := "page-3"; item_completed := None; item_fields := "Pay rent" |}
             ltac:(cbn; auto) eq_refl eq_refl).
Defined.

(** X25. Deleting an item always sends one archive of that page, listed or
    not; when the store accepts, no item of that id is left and the other
    items are kept in their order; when it refuses, the list is put back as
    it was and the error message is set. *)
Theorem deleteItem_outcomes {num : Type} `{!JsNumber num} {A : Type}
    (notion : NotionClient num) (id : string) (st : AppState A) (w : World num) :
  exists st',
    deleteItem notion id st w = (Ok st', afterCall w (PagesArchive id))
    /\ (pages_archive notion (calls w) id = Ok tt ->
        st' = {| items := removeById id (items st); error := error st |}
        /\ (forall i, In i (items st') <-> In i (items st) /\ item_id i <> id)
        /\ ((forall i, In i (items st) -> item_id i <> id) -> items st' = items st))
    /\ (forall e, pages_archive notion (calls w) id = Throw e ->
        st' = {| items := items st;
                 error := "Failed to delete item. Please try again." |}).
Proof.
  unfold deleteItem, catch, bind. rewrite archiveRecord_eq.
  destruct (pages_archive notion (calls w) id) as [[]|e] eqn:Harchive; cbn.
  - eexists. split; [reflexivity|]. split; [|discriminate]. intros _.
    split; [reflexivity|]. cbn. split.
    + intros i. unfold removeById. rewrite List.filter_In, negb_true_iff.
      now rewrite String.eqb_neq.
    + intros Hnone. unfold removeById.
      induction (items st) as [|i l IH]; [reflexivity|]. cbn.
      assert (Hi : String.eqb (item_id i) id = false).
      { apply String.eqb_neq, Hnone. now left. }
      rewrite Hi. cbn. f_equal. apply IH. intros j Hj. apply Hnone. now right.
  - eexists. split; [reflexivity|]. split; [discriminate|]. now intros e' _.
Qed.

(** The store of [readOnlyNotion] refuses: the list is as before. *)
Lemma deleteItem_outcomes_witness :
  let st := {| items := sampleItems; error := EmptyString |} in
  fst (deleteItem (readOnlyNotion taskDatabase) "page-1" st freshWorld)
  = Ok {| items := sampleItems; error := "Failed to delete item. Please try again." |}
  /\ (forall i, In i (removeById "page-1" sampleItems)
                <-> In i sampleItems /\ item_id i <> "page-1").
Proof.
  intros st. split.
  - destruct (deleteItem_outcomes (readOnlyNotion taskDatabase) "page-1" st freshWorld)
      as (st' & -> & _ & Hrefused).
    now rewrite (Hrefused _ eq_refl).
  - destruct (deleteItem_outcomes (steadyNotion taskDatabase) "page-1" st freshWorld)
      as (st' & _ & Haccepted & _).
    destruct (Haccepted eq_refl) as (-> & Hin & _). exact Hin.
Defined.

(** X26. In the stand-alone task list, toggling a task twice restores the
    list; a toggle keeps the ids, their order and the titles, leaves the
    tasks of other ids as they are, and changes nothing when no task has
    the id. *)
Theorem toggleTask_involutive (tasks : list Task) (id : string) :
  toggleTask (toggleTask tasks id) id = tasks
  /\ map task_id (toggleTask tasks id) = map task_id tasks
  /\ map task_title (toggleTask tasks id) = map task_title tasks
  /\ (forall t, In t tasks -> task_id t <> id -> In t (toggleTask tasks id))
  /\ ((forall t, In t tasks -> task_id t <> id) -> toggleTask tasks id = tasks).
Proof.
  unfold toggleTask. split; [|split; [|split; [|split]]].
  - rewrite map_map. rewrite <- (map_id tasks) at 2. apply map_ext. intros t.
    destruct (String.eqb (task_id t) id) eqn:Ht; cbn; rewrite Ht; [|reflexivity].
    destruct t. cbn. now rewrite negb_involutive.
  - rewrite map_map. apply map_ext. intros t.
    now destruct (String.eqb (task_id t) id).
  - rewrite map_map. apply map_ext. intros t.
    now destruct (String.eqb (task_id t) id).
  - intros t Hin Hid. apply in_map_iff. exists t. split; [|exact Hin].
    apply String.eqb_neq in Hid. now rewrite Hid.
  - intros Hnone. rewrite <- (map_id tasks) at 2. apply map_ext_in. intros t Hin.
    specialize (Hnone t Hin). apply String.eqb_neq in Hnone. now rewrite Hnone.
Qed.

(** Toggling the first demo task leaves the second as it is. *)
Lemma toggleTask_involutive_witness :
  In {| task_id := "2"; task_title := "Read chapter 5"; task_completed := true;
        task_createdAt := "2024-01-01" |}
     (toggleTask sampleTasks "1")
  /\ toggleTask sampleTasks "3" = sampleTasks.
Proof.
  split.
  - apply (proj1 (proj2 (proj2 (proj2 (toggleTask_involutive sampleTasks "1")))));
      [cbn; auto|discriminate].
  - apply (proj2 (proj2 (proj2 (proj2 (toggleTask_involutive sampleTasks "3"))))).
    intros t [<- | [<- | []]]; discriminate.
Defined.

(** X27. In the stand-alone task list, deleting leaves exactly the tasks of
    other ids, in their order; deleting twice is deleting once; and deleting
    one id commutes with toggling any id. *)
Theorem deleteTask_removes (tasks : list Task) (id other : string) :
  (forall t, In t (deleteTask tasks id) <-> In t tasks /\ task_id t <> id)
  /\ deleteTask (deleteTask tasks id) id = deleteTask tasks id
  /\ deleteTask (toggleTask tasks other) id = toggleTask (deleteTask tasks id) other.
Proof.
  unfold deleteTask. split; [|split].
  - intros t. rewrite List.filter_In, negb_true_iff. now rewrite String.eqb_neq.
  - induction tasks as [|t tasks IH]; [reflexivity|]. cbn.
    destruct (String.eqb (task_id t) id) eqn:Ht; cbn; [exact IH|].
    rewrite Ht. cbn. now rewrite IH.
  - unfold toggleTask. induction tasks as [|t tasks IH]; [reflexivity|]. cbn.
    assert (Hid : forall b : bool,
               task_id (if b then {| task_id := task_id t; task_title := task_title t;
                                     task_completed := negb (task_completed t);
                                     task_createdAt := task_createdAt t |}
                        else t) = task_id t) by now intros [].
    rewrite Hid. destruct (String.eqb (task_id t) id); cbn; now rewrite IH.
Qed.
